(** * route55_autotest-ai: the test-generation pipeline of [main.py]

    A shallow embedding of [src/main.py] and the properties of its
    natural-language specification.

    Conventions of the embedding.
    - A Python [str] is a [string]; every character is read as one code
      point in the range 0..255.  The builtin methods used by the program
      ([strip], [startswith], [endswith], [splitlines], [replace], [join],
      [lower]) are defined on that range as CPython defines them.  The
      Japanese literals of the program (two prompt headers, one exception
      message) stand as their UTF-8 bytes: they are handed on, never
      scanned.
    - A backend response is a [pyval]: the duck-typed probing of
      [extract_text_from_response] is written with [hasattr], [len],
      indexing and [dict.get] on that type.
    - Effects are threaded through a state-and-exception monad [M] over a
      [world] (files, event trace, backend call counter, pending console
      input).  Collaborators outside the program (the generative backend,
      [os.walk], the unittest runner, the Python parser behind [compile])
      are oracles gathered in an [env], and so is what the file system
      refuses: the exception of [open] and [read] on a path that holds no
      readable text, and the exception of [os.makedirs].
    - [tenacity.retry] is modelled by [retrying], following the order in
      which the library consults its [retry] and [stop] predicates. *)

From Stdlib Require Import Ascii NArith ZArith.
From stdpp Require Import gmap strings list.

Set Warnings "-register-all".

(** ** Python [str] methods *)

Definition nl : string := String (ascii_of_nat 10) "".
Definition cr_char : ascii := ascii_of_nat 13.
Definition lf_char : ascii := ascii_of_nat 10.

(** [str.isspace] on one code point below 256: TAB..CR, FS..US, SPACE,
    NEL (0x85) and NBSP (0xA0). *)
Definition isspace (c : ascii) : bool :=
  let n := N_of_ascii c in
  (((9 <=? n) && (n <=? 13)) || ((28 <=? n) && (n <=? 32))
   || (n =? 133) || (n =? 160))%N.

(** Line boundaries of [str.splitlines] below 256: LF, VT, FF, CR, FS, GS,
    RS and NEL. *)
Definition is_linebreak (c : ascii) : bool :=
  let n := N_of_ascii c in
  (((10 <=? n) && (n <=? 13)) || ((28 <=? n) && (n <=? 30)) || (n =? 133))%N.

Fixpoint lstrip (s : string) : string :=
  match s with
  | "" => ""
  | String c s' => if isspace c then lstrip s' else s
  end.

Fixpoint rstrip (s : string) : string :=
  match s with
  | "" => ""
  | String c s' =>
      match rstrip s' with
      | "" => if isspace c then "" else String c ""
      | r => String c r
      end
  end.

Definition strip (s : string) : string := rstrip (lstrip s).

Fixpoint startswith (s p : string) {struct p} : bool :=
  match p with
  | "" => true
  | String b p' =>
      match s with
      | "" => false
      | String a s' => Ascii.eqb a b && startswith s' p'
      end
  end.

(** [s.endswith(p)]: some suffix of [s] is [p]. *)
Fixpoint endswith (s p : string) : bool :=
  String.eqb s p
  || match s with
     | "" => false
     | String _ s' => endswith s' p
     end.

(** [p in s] *)
Fixpoint contains (s p : string) : bool :=
  startswith s p
  || match s with
     | "" => false
     | String _ s' => contains s' p
     end.

Fixpoint drop_chars (n : nat) (s : string) : string :=
  match n, s with
  | O, _ => s
  | S _, "" => ""
  | S n', String _ s' => drop_chars n' s'
  end.

(** [str.splitlines()]: the text is cut after every line boundary, CR LF
    counting as one; the boundaries are dropped and no empty last line is
    produced for a text that ends with a boundary. *)
Fixpoint splitlines (s : string) : list string :=
  match s with
  | "" => []
  | String c s' =>
      if is_linebreak c then
        "" :: match s' with
              | String d s'' =>
                  if Ascii.eqb c cr_char && Ascii.eqb d lf_char
                  then splitlines s'' else splitlines s'
              | "" => []
              end
      else
        match splitlines s' with
        | [] => [String c ""]
        | l :: ls => String c l :: ls
        end
  end.

(** [sep.join(parts)] *)
Fixpoint join (sep : string) (parts : list string) : string :=
  match parts with
  | [] => ""
  | [x] => x
  | x :: rest => x +:+ sep +:+ join sep rest
  end.

(** [s.replace(old, new)] for a non-empty [old]: occurrences are found left
    to right and do not overlap.  [skip] counts the characters of the
    occurrence being replaced that are still to be passed over. *)
Fixpoint replace_go (old new : string) (skip : nat) (s : string) : string :=
  match s with
  | "" => ""
  | String c s' =>
      match skip with
      | S k => replace_go old new k s'
      | O =>
          if startswith s old
          then new +:+ replace_go old new (String.length old - 1) s'
          else String c (replace_go old new O s')
      end
  end.

(** For an empty [old] Python puts [new] before every character and at the
    end. *)
Fixpoint intersperse_new (new s : string) : string :=
  match s with
  | "" => new
  | String c s' => new +:+ String c (intersperse_new new s')
  end.

Definition replace (s old new : string) : string :=
  match old with
  | "" => intersperse_new new s
  | _ => replace_go old new O s
  end.

(** [str.lower] on one code point below 256: A..Z and the Latin-1 capitals
    0xC0..0xDE except the multiplication sign 0xD7. *)
Definition lower_char (c : ascii) : ascii :=
  let n := N_of_ascii c in
  if (((65 <=? n) && (n <=? 90))
      || ((192 <=? n) && (n <=? 222) && negb (n =? 215)))%N
  then ascii_of_N (n + 32) else c.

Fixpoint lower (s : string) : string :=
  match s with
  | "" => ""
  | String c s' => String (lower_char c) (lower s')
  end.

(** ** [os.path] (POSIX) *)

Definition sep_char : ascii := "/"%char.

Definition os_path_join (a b : string) : string :=
  if startswith b "/" then b
  else if String.eqb a "" || endswith a "/" then a +:+ b
  else a +:+ "/" +:+ b.

(** [os.path.basename]: what follows the last slash. *)
Fixpoint basename (p : string) : string :=
  match p with
  | "" => ""
  | String c p' =>
      if contains p' "/" then basename p'
      else if Ascii.eqb c sep_char then p' else p
  end.

(** ** Exceptions and results *)

(** What the file system calls of the program ([open], [read],
    [os.makedirs]) raise besides [FileNotFoundError]. *)
Inductive file_error : Type :=
  | PermissionError
  | IsADirectoryError
  | NotADirectoryError
  | FileExistsError
  | UnicodeDecodeError
  | OtherFileError (name : string).

(** Instances of subclasses of [Exception].  [sys.exit] is not one of
    them: it is the [Exit] result below. *)
Inductive exn : Type :=
  | ResourceExhausted
  | TimeoutError
  | AttributeError (msg : string)
  | TypeError
  | KeyError
  | IndexError
  | SyntaxError (msg : string)
  | FileNotFoundError (path : string)
  | FileError (kind : file_error)
  | EOFError
  | RetryError (last_attempt : exn)
  | OtherException (name : string).

(** What a collaborator outside the program answers. *)
Inductive outcome (A : Type) : Type :=
  | Ok (a : A)
  | Err (e : exn).
Arguments Ok {A} a.
Arguments Err {A} e.

(** How a piece of the program ends: normally, by an exception that is
    propagating, or by [SystemExit] with a status code. *)
Inductive result (A : Type) : Type :=
  | Return (a : A)
  | Raise (e : exn)
  | Exit (code : Z).
Arguments Return {A} a.
Arguments Raise {A} e.
Arguments Exit {A} code.

(** ** Backend responses *)

(** A dictionary is an association list with distinct keys; an object is
    the association list of its data attributes. *)
Inductive pyval : Type :=
  | PyNone
  | PyStr (s : string)
  | PyList (items : list pyval)
  | PyDict (entries : list (string * pyval))
  | PyObj (attrs : list (string * pyval)).

Fixpoint assoc {A : Type} (k : string) (l : list (string * A)) : option A :=
  match l with
  | [] => None
  | (k', v) :: rest => if String.eqb k k' then Some v else assoc k rest
  end.

Definition no_attribute (name : string) : exn :=
  AttributeError ("object has no attribute " +:+ name).

Definition py_hasattr (v : pyval) (name : string) : bool :=
  match v with
  | PyObj attrs => bool_decide (is_Some (assoc name attrs))
  | _ => false
  end.

Definition py_getattr (v : pyval) (name : string) : outcome pyval :=
  match v with
  | PyObj attrs =>
      match assoc name attrs with
      | Some x => Ok x
      | None => Err (no_attribute name)
      end
  | _ => Err (no_attribute name)
  end.

Definition py_len (v : pyval) : outcome nat :=
  match v with
  | PyStr s => Ok (String.length s)
  | PyList items => Ok (length items)
  | PyDict entries => Ok (length entries)
  | PyNone | PyObj _ => Err TypeError
  end.

(** [v[0]] *)
Definition py_index0 (v : pyval) : outcome pyval :=
  match v with
  | PyList (x :: _) => Ok x
  | PyList [] => Err IndexError
  | PyStr (String c _) => Ok (PyStr (String c ""))
  | PyStr "" => Err IndexError
  | PyDict _ => Err KeyError
  | PyNone | PyObj _ => Err TypeError
  end.

Definition isinstance_dict (v : pyval) : bool :=
  match v with PyDict _ => true | _ => false end.

Definition isinstance_list (v : pyval) : bool :=
  match v with PyList _ => true | _ => false end.

(** [v.get(key, default)]: only a dictionary has the method; a data
    attribute called [get] is not callable. *)
Definition py_get (v : pyval) (key : string) (default : pyval) : outcome pyval :=
  match v with
  | PyDict entries => Ok (from_option id default (assoc key entries))
  | PyObj attrs =>
      match assoc "get" attrs with
      | Some _ => Err TypeError
      | None => Err (no_attribute "get")
      end
  | _ => Err (no_attribute "get")
  end.

Definition py_in (key : string) (v : pyval) : bool :=
  match v with
  | PyDict entries => bool_decide (is_Some (assoc key entries))
  | _ => false
  end.

(** [v[key]] for a string key *)
Definition py_item (v : pyval) (key : string) : outcome pyval :=
  match v with
  | PyDict entries =>
      match assoc key entries with
      | Some x => Ok x
      | None => Err KeyError
      end
  | _ => Err TypeError
  end.

Global Instance outcome_ret : MRet outcome := λ A a, Ok a.
Global Instance outcome_bind : MBind outcome := λ A B f o,
  match o with
  | Ok a => f a
  | Err e => Err e
  end.

(** ** The world the program runs in *)

Inductive level : Type := DEBUG | INFO | WARNING | ERROR.

(** One constructor per logging call site of [main.py], with the values
    the message is formatted from. *)
Inductive message : Type :=
  | MsgQuotaExceeded
  | MsgErrorRetrying (e : exn)
  | MsgNoTextInResponse
  | MsgSrcDirMissing (src_dir : string)
  | MsgNoPythonFiles
  | MsgFoundFiles
  | MsgListItem (path : string)
  | MsgGeneratedCode (file_path test_code : string)
  | MsgEmptyTestCode (file_path : string)
  | MsgTestWritten (test_file_path : string)
  | MsgGenerationError (file_path : string) (e : exn)
  | MsgRunningTests
  | MsgRunError (test_file_path : string) (e : exn)
  | MsgResults
  | MsgPassedCount (n : nat)
  | MsgFailedCount (n : nat)
  | MsgRepairSyntaxError (test_file : string) (e : exn)
  | MsgRepaired (test_file : string)
  | MsgRepairError (test_file : string) (e : exn)
  | MsgDone.

Inductive event : Type :=
  | EvLog (lvl : level) (msg : message)
  | EvGenerateContent (prompt : string)
  | EvSleep (seconds : nat)
  | EvMakedirs (path : string)
  | EvWrite (path content : string)
  | EvRunSuite (test_file_path : string)
  | EvInput (prompt : string).

Record world : Type := World {
  files : gmap string string;   (* regular files: path to content *)
  trace : list event;           (* what happened so far, oldest first *)
  calls : nat;                  (* backend calls made so far *)
  stdin : list string           (* lines the operator will type *)
}.

(** The collaborators of the program.  The backend may answer each call
    differently; the runner sees the files that exist when it runs.
    [read_error] says what opening and reading a path raises that holds
    no readable text (a directory, a file without read permission, bytes
    that are not UTF-8; [None] where nothing is there at all), and
    [makedirs_error] what [os.makedirs(path, exist_ok=True)] raises (a
    regular file in the way, a parent that cannot be written). *)
Record env : Type := Env {
  script_dir : string;
  path_exists : string → bool;
  os_walk : string → list (string * list string * list string);
  read_error : string → option file_error;
  makedirs_error : string → option file_error;
  generate_content : nat → string → outcome pyval;
  run_suite : gmap string string → string → outcome bool;
  py_compile : string → outcome unit
}.

Definition M (A : Type) : Type := world → result A * world.

Definition ret {A} (a : A) : M A := λ w, (Return a, w).
Definition raise {A} (e : exn) : M A := λ w, (Raise e, w).
Definition sys_exit {A} (code : Z) : M A := λ w, (Exit code, w).

Definition bind {A B} (m : M A) (k : A → M B) : M B := λ w,
  match m w with
  | (Return a, w') => k a w'
  | (Raise e, w') => (Raise e, w')
  | (Exit c, w') => (Exit c, w')
  end.

Notation "x <- m ;; k" := (bind m (λ x, k))
  (at level 100, m at next level, right associativity).
Notation "m ;; k" := (bind m (λ _, k))
  (at level 100, right associativity).

(** [try: m except Exception as e: handler e] *)
Definition try_except {A} (m : M A) (handler : exn → M A) : M A := λ w,
  match m w with
  | (Raise e, w') => handler e w'
  | r => r
  end.

Definition lift {A} (o : outcome A) : M A :=
  match o with
  | Ok a => ret a
  | Err e => raise e
  end.

Definition emit (ev : event) : M unit := λ w,
  (Return tt,
   {| files := files w; trace := trace w ++ [ev];
      calls := calls w; stdin := stdin w |}).

(** [logging.basicConfig(level=logging.INFO)]: debug records are dropped. *)
Definition level_enabled (lvl : level) : bool :=
  match lvl with DEBUG => false | _ => true end.

Definition logger (lvl : level) (msg : message) : M unit :=
  if level_enabled lvl then emit (EvLog lvl msg) else ret tt.

(** What [open(path, 'r', encoding='utf-8')] followed by [read()] raises
    on a path that holds no readable text. *)
Definition read_failure (E : env) (path : string) : exn :=
  match read_error E path with
  | Some kind => FileError kind
  | None => FileNotFoundError path
  end.

Definition open_read (E : env) (path : string) : M string := λ w,
  match files w !! path with
  | Some content => (Return content, w)
  | None => (Raise (read_failure E path), w)
  end.

(** [os.makedirs(path, exist_ok=True)] *)
Definition os_makedirs (E : env) (path : string) : M unit := λ w,
  match makedirs_error E path with
  | Some kind => (Raise (FileError kind), w)
  | None =>
      (Return tt,
       {| files := files w; trace := trace w ++ [EvMakedirs path];
          calls := calls w; stdin := stdin w |})
  end.

(** Writing is taken to succeed: the directory written to has just been
    made by [os.makedirs]. *)
Definition open_write (path content : string) : M unit := λ w,
  (Return tt,
   {| files := <[path := content]> (files w);
      trace := trace w ++ [EvWrite path content];
      calls := calls w; stdin := stdin w |}).

Definition py_input (prompt : string) : M string := λ w,
  match stdin w with
  | [] => (Raise EOFError, w)
  | line :: rest =>
      (Return line,
       {| files := files w; trace := trace w ++ [EvInput prompt];
          calls := calls w; stdin := rest |})
  end.

Definition sleep (seconds : nat) : M unit := emit (EvSleep seconds).

(** [await asyncio.to_thread(self.model.generate_content, prompt)] *)
Definition call_generate_content (E : env) (prompt : string) : M pyval := λ w,
  let w' := {| files := files w;
               trace := trace w ++ [EvGenerateContent prompt];
               calls := S (calls w); stdin := stdin w |} in
  match generate_content E (calls w) prompt with
  | Ok response => (Return response, w')
  | Err e => (Raise e, w')
  end.

(** ** GeminiModel *)

Definition unrecognized_shape_msg : string :=
  "GenerateContentResponseに適切な属性が存在しません。".

(** [hasattr(response, name) and len(getattr(response, name)) > 0] *)
Definition has_nonempty_attr (response : pyval) (name : string) : outcome bool :=
  if py_hasattr response name
  then v ← py_getattr response name; n ← py_len v; mret (0 <? n)
  else mret false.

(** ['generations' in response and isinstance(response['generations'], list)
    and len(response['generations']) > 0] *)
Definition has_nonempty_list_item (response : pyval) (key : string) : outcome bool :=
  if py_in key response
  then v ← py_item response key;
       if isinstance_list v then n ← py_len v; mret (0 <? n)
       else mret false
  else mret false.

Definition extract_text_from_response (response : pyval) : M pyval :=
  has_generations <- lift (has_nonempty_attr response "generations") ;;
  if has_generations then
    lift (g ← py_getattr response "generations";
          first ← py_index0 g; py_getattr first "text")
  else if py_hasattr response "text" then
    lift (py_getattr response "text")
  else if isinstance_dict response then
    has_list <- lift (has_nonempty_list_item response "generations") ;;
    if has_list then
      lift (g ← py_item response "generations";
            first ← py_index0 g; py_get first "text" (PyStr ""))
    else if py_in "text" response then
      lift (py_get response "text" (PyStr ""))
    else ret PyNone
  else
    has_choices <- lift (has_nonempty_attr response "choices") ;;
    if has_choices then
      lift (c ← py_getattr response "choices";
            first ← py_index0 c; py_getattr first "text")
    else
      logger ERROR MsgNoTextInResponse ;;
      raise (AttributeError unrecognized_shape_msg).

(** The body of [generate_test_code]: one attempt. *)
Definition generate_attempt (E : env) (prompt : string) : M pyval :=
  try_except
    (response <- call_generate_content E prompt ;;
     extract_text_from_response response)
    (λ e, match e with
          | ResourceExhausted => logger ERROR MsgQuotaExceeded ;; raise e
          | _ => logger WARNING (MsgErrorRetrying e) ;; raise e
          end).

(** [tenacity.retry]: after a failed attempt the [retry] predicate is
    asked first (an exception it rejects is re-raised as it is), then
    [stop] (when it holds, [RetryError] wraps the last attempt), and
    otherwise the call sleeps and tries again.  [attempts_left] is the
    number of attempts still allowed after the current one. *)
Fixpoint retrying {A} (attempts_left wait : nat) (retry_if : exn → bool)
    (f : M A) : M A := λ w,
  match f w with
  | (Raise e, w') =>
      if retry_if e then
        match attempts_left with
        | O => (Raise (RetryError e), w')
        | S n =>
            match sleep wait w' with
            | (_, w'') => retrying n wait retry_if f w''
            end
        end
      else (Raise e, w')
  | r => r
  end.

Definition stop_after_attempt : nat := 3.
Definition wait_fixed : nat := 5.

(** [retry_if_exception_type((ResourceExhausted, asyncio.TimeoutError))] *)
Definition retry_if_exception_type (e : exn) : bool :=
  match e with
  | ResourceExhausted | TimeoutError => true
  | _ => false
  end.

Definition generate_test_code (E : env) (prompt : string) : M pyval :=
  retrying (stop_after_attempt - 1) wait_fixed retry_if_exception_type
    (generate_attempt E prompt).

Definition sanitize_generated_text (text : string) : string :=
  strip (replace (replace text "```python" "") "```" "").

(** ** extract_code_from_markdown *)

(** One turn of the [for line in text.splitlines()] loop on the pair
    [(code_lines, in_code_block)]. *)
Definition extract_step (st : list string * bool) (line : string)
    : list string * bool :=
  let '(code_lines, in_code_block) := st in
  if startswith (strip line) "```python" then (code_lines, true)
  else if startswith (strip line) "```" && in_code_block then (code_lines, false)
  else if in_code_block then (code_lines ++ [line], in_code_block)
  else (code_lines, in_code_block).

Definition extract_code_from_markdown (text : string) : string :=
  join nl (fold_left extract_step (splitlines text) ([], false)).1.

(** The call [extract_code_from_markdown(test_code)] on whatever the model
    client returned: only a [str] has [splitlines]. *)
Definition extract_code_from_markdown_dyn (v : pyval) : outcome string :=
  match v with
  | PyStr text => Ok (extract_code_from_markdown text)
  | PyObj attrs =>
      match assoc "splitlines" attrs with
      | Some _ => Err TypeError
      | None => Err (no_attribute "splitlines")
      end
  | _ => Err (no_attribute "splitlines")
  end.

(** ** main *)

Definition src_dir (E : env) : string := os_path_join (script_dir E) "src".
Definition test_dir (E : env) : string := os_path_join (script_dir E) "tests".

(** [file.endswith('.py') and file != '__init__.py'] *)
Definition is_source_file (file : string) : bool :=
  endswith file ".py" && negb (String.eqb file "__init__.py").

(** The two nested loops over [os.walk(src_dir)]. *)
Definition discover (walk : list (string * list string * list string))
    : list string :=
  flat_map (λ '(root, _, files),
              map (os_path_join root) (List.filter is_source_file files))
           walk.

Fixpoint for_each {A} (items : list A) (body : A → M unit) : M unit :=
  match items with
  | [] => ret tt
  | x :: rest => body x ;; for_each rest body
  end.

(** A loop that carries a value from one turn to the next. *)
Fixpoint for_fold {A S} (items : list A) (body : A → S → M S) (s : S) : M S :=
  match items with
  | [] => ret s
  | x :: rest => s' <- body x s ;; for_fold rest body s'
  end.

Definition generation_header : string :=
  "以下のPythonコードに対する100%網羅率の単体テストコードのみを生成してください。"
  +:+ "コメントや説明文は含めないでください。" +:+ nl +:+ nl.

Definition generation_prompt (code : string) : string :=
  generation_header +:+ "```python" +:+ nl +:+ code +:+ nl +:+ "```".

Definition test_path_of (E : env) (file_path : string) : string :=
  os_path_join (test_dir E) ("test_" +:+ basename file_path).

(** One turn of the generation loop; [created] is [test_files_created]. *)
Definition generate_for (E : env) (file_path : string)
    (created : list string) : M (list string) :=
  code <- open_read E file_path ;;
  let prompt := generation_prompt code in
  try_except
    (response_text <- generate_test_code E prompt ;;
     test_code <- lift (extract_code_from_markdown_dyn response_text) ;;
     logger DEBUG (MsgGeneratedCode file_path test_code) ;;
     if String.eqb (strip test_code) "" then
       logger ERROR (MsgEmptyTestCode file_path) ;;
       ret created
     else
       let test_file_path := test_path_of E file_path in
       open_write test_file_path test_code ;;
       logger INFO (MsgTestWritten test_file_path) ;;
       ret (created ++ [test_file_path]))
    (λ e, logger ERROR (MsgGenerationError file_path e) ;; ret created).

Definition generation_stage (E : env) (python_files : list string)
    : M (list string) :=
  for_fold python_files (generate_for E) [].

(** [test_results[key] = value] on an insertion-ordered dictionary. *)
Fixpoint dict_set (key : string) (value : bool) (d : list (string * bool))
    : list (string * bool) :=
  match d with
  | [] => [(key, value)]
  | (k, v) :: rest =>
      if String.eqb k key then (k, value) :: rest
      else (k, v) :: dict_set key value rest
  end.

Definition run_tests (E : env) (test_file_path : string) : M bool := λ w,
  let w' := {| files := files w;
               trace := trace w ++ [EvRunSuite test_file_path];
               calls := calls w; stdin := stdin w |} in
  match run_suite E (files w) test_file_path with
  | Ok ok => (Return ok, w')
  | Err e => (Raise e, w')
  end.

Definition execute_one (E : env) (test_file_path : string)
    (test_results : list (string * bool)) : M (list (string * bool)) :=
  try_except
    (ok <- run_tests E test_file_path ;;
     ret (dict_set test_file_path ok test_results))
    (λ e, logger ERROR (MsgRunError test_file_path e) ;;
          ret (dict_set test_file_path false test_results)).

Definition execution_stage (E : env) (created : list string)
    : M (list (string * bool)) :=
  logger INFO MsgRunningTests ;;
  for_fold created (execute_one E) [].

Definition passed_of (test_results : list (string * bool)) : list string :=
  map fst (List.filter (λ kv, kv.2) test_results).

Definition failed_of (test_results : list (string * bool)) : list string :=
  map fst (List.filter (λ kv, negb kv.2) test_results).

Definition report (test_results : list (string * bool)) : M unit :=
  let passed_tests := passed_of test_results in
  let failed_tests := failed_of test_results in
  logger INFO MsgResults ;;
  logger INFO (MsgPassedCount (length passed_tests)) ;;
  for_each passed_tests (λ test, logger INFO (MsgListItem test)) ;;
  logger INFO (MsgFailedCount (length failed_tests)) ;;
  for_each failed_tests (λ test, logger INFO (MsgListItem test)).

Definition repair_header : string :=
  "以下のテストコードは失敗しています。原因を特定し、元のコードとテストコードを修正してください。"
  +:+ nl +:+ nl.

Definition repair_prompt (test_code : string) : string :=
  repair_header +:+ "```python" +:+ nl +:+ test_code +:+ nl +:+ "```".

Definition is_SyntaxError (e : exn) : bool :=
  match e with SyntaxError _ => true | _ => false end.

(** One turn of the repair loop. *)
Definition repair_one (E : env) (test_file : string) : M unit :=
  test_code <- open_read E test_file ;;
  let prompt := repair_prompt test_code in
  try_except
    (response_text <- generate_test_code E prompt ;;
     fixed_code <- lift (extract_code_from_markdown_dyn response_text) ;;
     let fixed_code := sanitize_generated_text fixed_code in
     match py_compile E fixed_code with
     | Err e =>
         if is_SyntaxError e
         then logger ERROR (MsgRepairSyntaxError test_file e)
         else raise e
     | Ok _ =>
         open_write test_file fixed_code ;;
         logger INFO (MsgRepaired test_file)
     end)
    (λ e, logger ERROR (MsgRepairError test_file e)).

Definition approval_prompt : string :=
  "失敗したスクリプトを自動修正しますか？ (yes/no): ".

(** [if failed_tests: ...] *)
Definition repair_stage (E : env) (failed_tests : list string) : M unit :=
  match failed_tests with
  | [] => ret tt
  | _ =>
      approval <- py_input approval_prompt ;;
      if String.eqb (lower approval) "yes"
      then for_each failed_tests (repair_one E)
      else ret tt
  end.

(** The body of [main], from the check of the source directory on.  What
    runs before it (reading the credential, configuring the backend,
    constructing [GeminiModel]) touches neither the files nor the log. *)
Definition main (E : env) : M unit :=
  if negb (path_exists E (src_dir E)) then
    logger ERROR (MsgSrcDirMissing (src_dir E)) ;;
    sys_exit 1
  else
    os_makedirs E (test_dir E) ;;
    let python_files := discover (os_walk E (src_dir E)) in
    match python_files with
    | [] => logger WARNING MsgNoPythonFiles ;; sys_exit 0
    | _ =>
        logger INFO MsgFoundFiles ;;
        for_each python_files (λ file, logger INFO (MsgListItem file)) ;;
        test_files_created <- generation_stage E python_files ;;
        match test_files_created with
        | [] => ret tt
        | _ =>
            test_results <- execution_stage E test_files_created ;;
            report test_results ;;
            repair_stage E (failed_of test_results)
        end ;;
        logger INFO MsgDone
    end.

(** The status the process ends with: 0 after a normal return, the code
    given to [sys.exit], 1 after an uncaught exception. *)
Definition exit_status {A} (r : result A) : Z :=
  match r with
  | Return _ => 0
  | Exit code => code
  | Raise _ => 1
  end.

(** ** Definitions used to state and prove the properties *)

(** [p] occurs in [s]. *)
Definition infix (p s : string) : Prop := ∃ a b, s = a +:+ p +:+ b.

Definition is_python_opener (line : string) : bool :=
  startswith (strip line) "```python".

Definition is_fence (line : string) : bool :=
  startswith (strip line) "```".

(** The lines the extraction loop keeps, as a recursive function of the
    flag and the lines still to read. *)
Fixpoint scan_lines (in_code_block : bool) (lines : list string) : list string :=
  match lines with
  | [] => []
  | line :: rest =>
      if is_python_opener line then scan_lines true rest
      else if is_fence line && in_code_block then scan_lines false rest
      else if in_code_block then line :: scan_lines in_code_block rest
      else scan_lines in_code_block rest
  end.

Fixpoint no_linebreak (s : string) : bool :=
  match s with
  | "" => true
  | String c s' => negb (is_linebreak c) && no_linebreak s'
  end.

(** The world after some more events. *)
Definition add_events (w : world) (evs : list event) : world :=
  {| files := files w; trace := trace w ++ evs;
     calls := calls w; stdin := stdin w |}.

Definition is_log (ev : event) : bool :=
  match ev with EvLog _ _ => true | _ => false end.

(** The events of a trace other than log records. *)
Definition schedule (evs : list event) : list event :=
  List.filter (λ ev, negb (is_log ev)) evs.

(** [n] backend calls with a pause of [wait] between consecutive ones. *)
Fixpoint attempts_schedule (prompt : string) (wait n : nat) : list event :=
  match n with
  | O => []
  | S O => [EvGenerateContent prompt]
  | S n' => EvGenerateContent prompt :: EvSleep wait
            :: attempts_schedule prompt wait n'
  end.

Definition empty_world (c : nat) : world :=
  {| files := ∅; trace := []; calls := c; stdin := [] |}.

(** How the attempt that makes backend call number [c] ends. *)
Definition attempt_result (E : env) (prompt : string) (c : nat) : result pyval :=
  (generate_attempt E prompt (empty_world c)).1.



(** An outcome whose exception, if any, is not one the retry policy
    retries. *)
Definition settled {A} (o : outcome A) : Prop :=
  ∀ e, o = Err e → retry_if_exception_type e = false.

(** A computation that only writes log records, ends the same way in every
    world, never exits and never raises what the retry policy retries. *)
Definition reports_only {A} (m : M A) : Prop :=
  ∃ r evs, (∀ w, m w = (r, add_events w evs))
    ∧ schedule evs = []
    ∧ (∀ e, r = Raise e → retry_if_exception_type e = false)
    ∧ (∀ c, r ≠ Exit c).

(** *** Sample environments *)

Definition fenced (body : list string) : string :=
  join nl (["```python"] ++ body ++ ["```"]).

(** A backend whose first call fails and whose later calls answer with a
    fenced unit test; a parser that rejects one particular text. *)
Definition demo_env : env :=
  {| script_dir := "/app";
     path_exists := λ p, String.eqb p "/app/src";
     os_walk := λ _, [("/app/src", ["pkg"], ["foo.py"; "bar.py"; "__init__.py"])];
     read_error := λ _, None;
     makedirs_error := λ _, None;
     generate_content := λ n _,
       match n with
       | O => Err (OtherException "InternalServerError")
       | _ => Ok (PyObj [("text", PyStr (fenced ["import unittest"; "def ("]))])
       end;
     run_suite := λ _ _, Ok false;
     py_compile := λ code,
       if contains code "def (" then Err (SyntaxError "invalid syntax")
       else Ok tt |}.


(** A backend that always answers with the same response. *)
Definition env_answering (response : pyval) : env :=
  {| script_dir := "/app";
     path_exists := path_exists demo_env;
     os_walk := os_walk demo_env;
     read_error := λ _, None;
     makedirs_error := λ _, None;
     generate_content := λ _ _, Ok response;
     run_suite := run_suite demo_env;
     py_compile := py_compile demo_env |}.

(** No source directory at all. *)
Definition env_without_src : env :=
  {| script_dir := "/app";
     path_exists := λ _, false;
     os_walk := λ _, [];
     read_error := λ _, None;
     makedirs_error := λ _, None;
     generate_content := generate_content demo_env;
     run_suite := run_suite demo_env;
     py_compile := py_compile demo_env |}.

(** A source directory that holds a package initializer and a text file. *)
Definition env_without_modules : env :=
  {| script_dir := "/app";
     path_exists := λ p, String.eqb p "/app/src";
     os_walk := λ _, [("/app/src", [], ["__init__.py"; "README.md"])];
     read_error := λ _, None;
     makedirs_error := λ _, None;
     generate_content := generate_content demo_env;
     run_suite := run_suite demo_env;
     py_compile := py_compile demo_env |}.

(** The same source directory, with a regular file where the test
    directory should be made. *)
Definition env_tests_is_a_file : env :=
  {| script_dir := "/app";
     path_exists := λ p, String.eqb p "/app/src";
     os_walk := λ _, [("/app/src", [], ["__init__.py"; "README.md"])];
     read_error := λ _, None;
     makedirs_error := λ p,
       if String.eqb p "/app/tests" then Some FileExistsError else None;
     generate_content := generate_content demo_env;
     run_suite := run_suite demo_env;
     py_compile := py_compile demo_env |}.

(** A backend that is always over quota. *)
Definition env_over_quota : env :=
  {| script_dir := "/app";
     path_exists := path_exists demo_env;
     os_walk := os_walk demo_env;
     read_error := λ _, None;
     makedirs_error := λ _, None;
     generate_content := λ _ _, Err ResourceExhausted;
     run_suite := run_suite demo_env;
     py_compile := py_compile demo_env |}.

Definition demo_world : world :=
  {| files := {[ "/app/src/foo.py" := "def foo(): return 1";
                 "/app/src/bar.py" := "def bar(): return 2";
                 "/app/tests/test_foo.py" := "import unittest" ]};
     trace := [];
     calls := 0;
     stdin := ["no"] |}.

(** The operator has approved and the backend is past its first call. *)
Definition demo_world_approved : world :=
  {| files := files demo_world; trace := []; calls := 1; stdin := [] |}.

(** *** Further definitions for the properties of the stages *)

(** The file [p] holds a text that is not blank. *)
Definition holds_artifact (w : world) (p : string) : Prop :=
  ∃ a, files w !! p = Some a ∧ strip a ≠ "".

(** What the runner's answer is recorded as. *)
Definition suite_passed (E : env) (fs : gmap string string) (p : string) : bool :=
  match run_suite E fs p with
  | Ok ok => ok
  | Err _ => false
  end.

(** The records the report writes. *)
Definition report_events (test_results : list (string * bool)) : list event :=
  [EvLog INFO MsgResults;
   EvLog INFO (MsgPassedCount (length (passed_of test_results)))]
  ++ map (λ test, EvLog INFO (MsgListItem test)) (passed_of test_results)
  ++ [EvLog INFO (MsgFailedCount (length (failed_of test_results)))]
  ++ map (λ test, EvLog INFO (MsgListItem test)) (failed_of test_results).

(** The answers that approve the repair. *)
Definition yes_spellings : list string :=
  ["yes"; "yeS"; "yEs"; "yES"; "Yes"; "YeS"; "YEs"; "YES"].

(** The world after the operator's answer has been read. *)
Definition after_input (w : world) (rest : list string) : world :=
  {| files := files w; trace := trace w ++ [EvInput approval_prompt];
     calls := calls w; stdin := rest |}.

(** A backend that is over quota, then times out, then answers. *)
Definition env_flaky : env :=
  {| script_dir := "/app";
     path_exists := path_exists demo_env;
     os_walk := os_walk demo_env;
     read_error := λ _, None;
     makedirs_error := λ _, None;
     generate_content := λ n _,
       match n with
       | 0 => Err ResourceExhausted
       | 1 => Err TimeoutError
       | _ => Ok (PyObj [("text", PyStr (fenced ["import unittest"]))])
       end;
     run_suite := run_suite demo_env;
     py_compile := py_compile demo_env |}.

(** A backend that is over quota once and times out ever after. *)
Definition env_timing_out : env :=
  {| script_dir := "/app";
     path_exists := path_exists demo_env;
     os_walk := os_walk demo_env;
     read_error := λ _, None;
     makedirs_error := λ _, None;
     generate_content := λ n _,
       match n with
       | 0 => Err ResourceExhausted
       | _ => Err TimeoutError
       end;
     run_suite := run_suite demo_env;
     py_compile := py_compile demo_env |}.

(** A backend that answers with a fenced test and a runner that reports
    every suite as passed. *)
Definition env_all_passing : env :=
  {| script_dir := "/app";
     path_exists := path_exists demo_env;
     os_walk := os_walk demo_env;
     read_error := λ _, None;
     makedirs_error := λ _, None;
     generate_content := λ _ _,
       Ok (PyObj [("text", PyStr (fenced ["import unittest"]))]);
     run_suite := λ _ _, Ok true;
     py_compile := py_compile demo_env |}.

(** The operator answers with a blank before the word. *)
Definition demo_world_blank_yes : world :=
  {| files := files demo_world; trace := []; calls := 1; stdin := [" yes"] |}.

(** * Properties *)

(** ** Strings *)

Lemma str_app_cons c (s t : string) : String c s +:+ t = String c (s +:+ t).
Proof. reflexivity. Qed.

Lemma str_app_nil_l (s : string) : "" +:+ s = s.
Proof. reflexivity. Qed.

Lemma str_app_nil_r (s : string) : s +:+ "" = s.
Proof. induction s as [|c s IH]; [done|]. by rewrite str_app_cons, IH. Qed.

Lemma str_app_assoc (a b c : string) : (a +:+ b) +:+ c = a +:+ b +:+ c.
Proof. induction a as [|x a IH]; [reflexivity|]. by rewrite !str_app_cons, IH. Qed.

Lemma startswith_app (p b : string) : startswith (p +:+ b) p = true.
Proof.
  induction p as [|c p IH]; [done|].
  rewrite str_app_cons. simpl. by rewrite Ascii.eqb_refl, IH.
Qed.

Lemma startswith_split (s p : string) :
  startswith s p = true → ∃ b, s = p +:+ b.
Proof.
  revert s. induction p as [|c p IH]; intros s H.
  - by exists s.
  - destruct s as [|a s]; simpl in H; [done|].
    apply andb_prop in H as [Hc Hp]. apply Ascii.eqb_eq in Hc as ->.
    destruct (IH _ Hp) as [b ->]. by exists b.
Qed.

Lemma startswith_weaken (s p q : string) :
  startswith s (p +:+ q) = true → startswith s p = true.
Proof.
  intros [b ->]%startswith_split. rewrite str_app_assoc. apply startswith_app.
Qed.

Lemma infix_refl (s : string) : infix s s.
Proof. exists "", "". by rewrite str_app_nil_r. Qed.

Lemma infix_trans (p q s : string) : infix p q → infix q s → infix p s.
Proof.
  intros (a & b & ->) (a' & b' & ->).
  exists (a' +:+ a), (b +:+ b'). by rewrite !str_app_assoc.
Qed.

Lemma infix_cons c (p s : string) : infix p s → infix p (String c s).
Proof. intros (a & b & ->). by exists (String c a), b. Qed.

Lemma infix_prefix (p b : string) : infix p (p +:+ b).
Proof. by exists "", b. Qed.

Lemma contains_infix (s p : string) : contains s p = true ↔ infix p s.
Proof.
  split.
  - induction s as [|c s IH]; simpl; intros H.
    + apply orb_prop in H as [H|H]; [|done].
      destruct (startswith_split _ _ H) as [b ->]. apply infix_prefix.
    + apply orb_prop in H as [H|H].
      * destruct (startswith_split _ _ H) as [b ->]. apply infix_prefix.
      * by apply infix_cons, IH.
  - intros (a & b & ->). induction a as [|c a IH].
    + rewrite str_app_nil_l. destruct (p +:+ b) eqn:E; simpl; rewrite <- E;
        by rewrite startswith_app.
    + rewrite str_app_cons. simpl. rewrite IH. apply orb_true_r.
Qed.

Lemma not_contains_infix (p q s : string) :
  infix q s → contains s p = false → contains q p = false.
Proof.
  intros Hq Hs. destruct (contains q p) eqn:E; [|done].
  apply contains_infix in E. rewrite <- Hs. symmetry.
  apply contains_infix. by eapply infix_trans.
Qed.

Lemma lstrip_suffix (s : string) : ∃ a, s = a +:+ lstrip s.
Proof.
  induction s as [|c s [a IH]]; [by exists ""|]. simpl.
  destruct (isspace c); [|by exists ""].
  exists (String c a). by rewrite str_app_cons, <- IH.
Qed.

Lemma rstrip_prefix (s : string) : ∃ b, s = rstrip s +:+ b.
Proof.
  induction s as [|c s [b IH]]; [by exists ""|]. simpl.
  destruct (rstrip s) as [|d r] eqn:E.
  - destruct (isspace c); [by exists (String c s)|].
    exists s. by rewrite str_app_cons, str_app_nil_l.
  - exists b. by rewrite str_app_cons, <- IH.
Qed.

Lemma strip_infix (s : string) : infix (strip s) s.
Proof.
  unfold strip. destruct (lstrip_suffix s) as [a Ha].
  destruct (rstrip_prefix (lstrip s)) as [b Hb].
  exists a, b. by rewrite <- Hb.
Qed.

Lemma lstrip_head c (s r : string) : lstrip s = String c r → isspace c = false.
Proof.
  induction s as [|d s IH]; simpl; [done|].
  destruct (isspace d) eqn:E; [done|]. by intros [= <- _].
Qed.

Lemma rstrip_idemp (s : string) : rstrip (rstrip s) = rstrip s.
Proof.
  induction s as [|c s IH]; [done|]. simpl.
  destruct (rstrip s) as [|d r] eqn:E.
  - destruct (isspace c) eqn:Hc; [done|]. simpl. by rewrite Hc.
  - change (rstrip (String c (String d r))) with
      (match rstrip (String d r) with
       | "" => if isspace c then "" else String c ""
       | x => String c x end).
    by rewrite IH.
Qed.

Lemma strip_idemp (s : string) : strip (strip s) = strip s.
Proof.
  unfold strip. destruct (lstrip s) as [|c u] eqn:E; [done|].
  apply lstrip_head in E.
  assert (∃ r, rstrip (String c u) = String c r) as [r Hr].
  { simpl. destruct (rstrip u); rewrite ?E; eauto. }
  rewrite Hr. simpl. rewrite E. rewrite <- Hr. apply rstrip_idemp.
Qed.

#[local] Arguments startswith : simpl never.
#[local] Arguments strip : simpl never.

(** ** splitlines *)

Lemma is_linebreak_lf : is_linebreak lf_char = true.
Proof. reflexivity. Qed.

(** After a line boundary the remaining lines are those of the rest of the
    text, less the empty line a CR LF pair would leave. *)
Lemma splitlines_break c (s : string) :
  is_linebreak c = true →
  ∃ rest, splitlines (String c s) = "" :: rest
          ∧ (rest = splitlines s ∨ splitlines s = "" :: rest).
Proof.
  intros Hc. simpl. rewrite Hc. destruct s as [|d s]; [by eexists; eauto|].
  destruct (Ascii.eqb c cr_char && Ascii.eqb d lf_char) eqn:E.
  - eexists; split; [done|]. right.
    apply andb_prop in E as [_ ->%Ascii.eqb_eq].
    simpl. destruct s; reflexivity.
  - eexists; eauto.
Qed.

Lemma splitlines_head_prefix (s l : string) (ls : list string) :
  splitlines s = l :: ls → ∃ b, s = l +:+ b.
Proof.
  revert l ls. induction s as [|c s IH]; intros l ls; [done|].
  destruct (is_linebreak c) eqn:Hc.
  - destruct (splitlines_break c s Hc) as (rest & -> & _).
    intros [= <- _]. by eexists.
  - simpl. rewrite Hc. destruct (splitlines s) as [|l0 ls0].
    + intros [= <- _]. by exists s.
    + intros [= <- _]. destruct (IH _ _ eq_refl) as [b ->]. by exists b.
Qed.

Lemma splitlines_infix (s l : string) : l ∈ splitlines s → infix l s.
Proof.
  revert l. induction s as [|c s IH]; intros l; [by intros ?%elem_of_nil|].
  destruct (is_linebreak c) eqn:Hc.
  - destruct (splitlines_break c s Hc) as (rest & -> & Hrest).
    intros [->|Hl]%elem_of_cons; [by exists "", (String c s)|].
    apply infix_cons, IH.
    destruct Hrest as [<-| ->]; [done|]. by apply elem_of_cons; right.
  - simpl. rewrite Hc. destruct (splitlines s) as [|l0 ls0] eqn:E.
    + intros ->%list_elem_of_singleton. by exists "", s.
    + intros [->|Hl]%elem_of_cons.
      * destruct (splitlines_head_prefix _ _ _ E) as [b ->].
        exists "", b. by rewrite str_app_nil_l.
      * apply infix_cons, IH. by apply elem_of_cons; right.
Qed.

Lemma splitlines_no_linebreak (s l : string) :
  l ∈ splitlines s → no_linebreak l = true.
Proof.
  revert l. induction s as [|c s IH]; intros l; [by intros ?%elem_of_nil|].
  destruct (is_linebreak c) eqn:Hc.
  - destruct (splitlines_break c s Hc) as (rest & -> & Hrest).
    intros [->|Hl]%elem_of_cons; [done|]. apply IH.
    destruct Hrest as [<-| ->]; [done|]. by apply elem_of_cons; right.
  - simpl. rewrite Hc. destruct (splitlines s) as [|l0 ls0] eqn:E.
    + intros ->%list_elem_of_singleton. simpl. by rewrite Hc.
    + intros [->|Hl]%elem_of_cons.
      * simpl. rewrite Hc. apply IH. by apply elem_of_cons; left.
      * apply IH. by apply elem_of_cons; right.
Qed.

Lemma splitlines_line_nl (x r : string) :
  no_linebreak x = true → splitlines (x +:+ nl +:+ r) = x :: splitlines r.
Proof.
  intros Hx. induction x as [|c x IH].
  - rewrite str_app_nil_l. unfold nl. rewrite str_app_cons, str_app_nil_l.
    change (splitlines (String (ascii_of_nat 10) r))
      with ("" :: match r with
                  | String d s'' =>
                      if Ascii.eqb (ascii_of_nat 10) cr_char && Ascii.eqb d lf_char
                      then splitlines s'' else splitlines r
                  | "" => []
                  end).
    by destruct r.
  - simpl in Hx. apply andb_prop in Hx as [Hc Hx].
    apply negb_true_iff in Hc.
    rewrite str_app_cons. simpl. by rewrite Hc, (IH Hx).
Qed.

Lemma splitlines_single (x : string) :
  no_linebreak x = true → splitlines x = if String.eqb x "" then [] else [x].
Proof.
  induction x as [|c x IH]; [done|]. simpl.
  intros [Hc Hx]%andb_prop. apply negb_true_iff in Hc. rewrite Hc, (IH Hx).
  by destruct x.
Qed.

(** Splitting a joined list of boundary-free lines gives those lines back,
    possibly without an empty last one. *)
Lemma splitlines_join (ls : list string) (x : string) :
  Forall (λ l, no_linebreak l = true) ls →
  x ∈ splitlines (join nl ls) → x ∈ ls.
Proof.
  induction ls as [|l ls IH]; [by intros _ ?%elem_of_nil|].
  intros [Hl Hls]%Forall_cons. destruct ls as [|l' ls].
  - simpl. rewrite (splitlines_single _ Hl).
    destruct (String.eqb l ""); [by intros ?%elem_of_nil|].
    intros ->%list_elem_of_singleton. by apply elem_of_cons; left.
  - change (join nl (l :: l' :: ls)) with (l +:+ nl +:+ join nl (l' :: ls)).
    rewrite (splitlines_line_nl _ _ Hl).
    intros [->|Hx]%elem_of_cons; apply elem_of_cons; auto.
Qed.

(** ** The extraction loop *)

Lemma extract_fold (lines : list string) (code_lines : list string) (flag : bool) :
  (fold_left extract_step lines (code_lines, flag)).1
  = code_lines ++ scan_lines flag lines.
Proof.
  revert code_lines flag. induction lines as [|line lines IH];
    intros code_lines flag; simpl.
  - by rewrite List.app_nil_r.
  - unfold is_python_opener, is_fence.
    destruct (startswith (strip line) "```python"); [apply IH|].
    destruct (startswith (strip line) "```" && flag); [apply IH|].
    destruct flag; rewrite IH; [|done].
    by rewrite <- List.app_assoc.
Qed.

Lemma extract_scan (text : string) :
  extract_code_from_markdown text = join nl (scan_lines false (splitlines text)).
Proof. unfold extract_code_from_markdown. by rewrite extract_fold. Qed.

Lemma scan_lines_subset flag (lines : list string) (l : string) :
  l ∈ scan_lines flag lines → l ∈ lines.
Proof.
  revert flag. induction lines as [|line lines IH]; intros flag; simpl; [done|].
  destruct (is_python_opener line); [by right; eauto|].
  destruct (is_fence line && flag); [by right; eauto|].
  destruct flag; [|by right; eauto].
  intros [->|H]%elem_of_cons; [by left|right; eauto].
Qed.

Lemma scan_lines_no_fence flag (lines : list string) (l : string) :
  l ∈ scan_lines flag lines → is_fence l = false.
Proof.
  revert flag. induction lines as [|line lines IH]; intros flag; simpl;
    [by intros ?%elem_of_nil|].
  destruct (is_python_opener line); [by eauto|].
  destruct (is_fence line && flag) eqn:E; [by eauto|].
  destruct flag; [|by eauto].
  intros [->|H]%elem_of_cons; [|by eauto].
  by rewrite andb_true_r in E.
Qed.

Lemma scan_lines_closed (lines : list string) :
  Forall (λ l, is_python_opener l = false) lines → scan_lines false lines = [].
Proof.
  induction 1 as [|l ls Hl _ IH]; simpl; [done|].
  by rewrite Hl, andb_false_r.
Qed.

Lemma scan_lines_body (body rest : list string) :
  Forall (λ l, is_fence l = false) body →
  scan_lines true (body ++ rest) = body ++ scan_lines true rest.
Proof.
  induction 1 as [|l ls Hl _ IH]; simpl; [done|].
  assert (is_python_opener l = false) as ->.
  { unfold is_python_opener. destruct (startswith (strip l) "```python") eqn:E; [|done].
    rewrite <- Hl. symmetry. by apply (startswith_weaken _ "```" "python"). }
  by rewrite Hl, IH.
Qed.

Lemma scan_lines_pre (pre rest : list string) :
  Forall (λ l, is_python_opener l = false) pre →
  scan_lines false (pre ++ rest) = scan_lines false rest.
Proof.
  induction 1 as [|l ls Hl _ IH]; simpl; [done|].
  by rewrite Hl, andb_false_r.
Qed.

Lemma opener_is_fence (l : string) : is_python_opener l = true → is_fence l = true.
Proof. apply (startswith_weaken _ "```" "python"). Qed.

Lemma opener_contains_fence (text l : string) :
  l ∈ splitlines text → is_python_opener l = true → contains text "```" = true.
Proof.
  intros Hl Ho%opener_is_fence. apply contains_infix.
  apply startswith_split in Ho as [b Hb].
  eapply infix_trans; [|by apply splitlines_infix].
  eapply infix_trans; [|apply strip_infix]. rewrite Hb. apply infix_prefix.
Qed.

(** ** replace *)

Lemma startswith_cons a b (s p : string) :
  startswith (String a s) (String b p) = Ascii.eqb a b && startswith s p.
Proof. reflexivity. Qed.

Lemma contains_cons c (s p : string) :
  contains (String c s) p = startswith (String c s) p || contains s p.
Proof. reflexivity. Qed.

Lemma replace_go_absent (old new s : string) :
  contains s old = false → replace_go old new 0 s = s.
Proof.
  induction s as [|c s IH]; [done|].
  rewrite contains_cons. intros [H1 H2]%orb_false_elim.
  simpl. by rewrite H1, (IH H2).
Qed.

Lemma replace_absent (s old new : string) :
  contains s old = false → replace s old new = s.
Proof.
  destruct old as [|c old].
  - by destruct s.
  - apply replace_go_absent.
Qed.

(** After every ["```"] has been removed no three backticks are left in a
    row: what the result starts with, the rest of the text started with. *)
Lemma removed_fence_head1 (s : string) (k : nat) :
  startswith (replace_go "```" "" k s) "`" = true →
  startswith (drop_chars k s) "`" = true.
Proof.
  revert k. induction s as [|c s IH]; intros k.
  - by destruct k.
  - destruct k as [|k]; [|apply IH]. cbn [replace_go drop_chars].
    destruct (startswith (String c s) "```") eqn:E.
    + intros _. by apply (startswith_weaken _ "`" "``").
    + done.
Qed.

Lemma removed_fence_head2 (s : string) (k : nat) :
  startswith (replace_go "```" "" k s) "``" = true →
  startswith (drop_chars k s) "``" = true.
Proof.
  revert k. induction s as [|c s IH]; intros k.
  - by destruct k.
  - destruct k as [|k]; [|apply IH]. cbn [replace_go drop_chars].
    destruct (startswith (String c s) "```") eqn:E.
    + intros _. by apply (startswith_weaken _ "``" "`").
    + rewrite !startswith_cons. intros [-> H]%andb_prop. simpl.
      by apply (removed_fence_head1 s 0).
Qed.

Lemma removed_fence_absent (s : string) (k : nat) :
  contains (replace_go "```" "" k s) "```" = false.
Proof.
  revert k. induction s as [|c s IH]; intros k; [done|].
  destruct k as [|k]; [|apply IH]. cbn [replace_go].
  destruct (startswith (String c s) "```") eqn:E; [apply IH|].
  rewrite contains_cons, IH, orb_false_r.
  destruct (startswith (String c (replace_go "```" "" 0 s)) "```") eqn:F; [|done].
  rewrite <- E. rewrite startswith_cons in F |- *.
  apply andb_prop in F as [-> F]. simpl. symmetry.
  by apply (removed_fence_head2 s 0).
Qed.

Lemma sanitize_no_fence (text : string) :
  contains (sanitize_generated_text text) "```" = false.
Proof.
  unfold sanitize_generated_text.
  eapply not_contains_infix; [apply strip_infix|].
  apply (removed_fence_absent _ 0).
Qed.

Lemma no_fence_no_opener (s : string) :
  contains s "```" = false → contains s "```python" = false.
Proof.
  intros H. destruct (contains s "```python") eqn:E; [|done].
  rewrite <- H. symmetry. apply contains_infix.
  apply contains_infix in E as (a & c & ->).
  exists a, ("python" +:+ c). done.
Qed.

(** C10: [sanitize_generated_text] is idempotent.  For every text,
    sanitizing twice gives what sanitizing once gives: the first pass
    leaves no fence marker and no surrounding whitespace, so the second
    pass changes nothing. *)
Theorem sanitize_generated_text_idempotent (text : string) :
  sanitize_generated_text (sanitize_generated_text text)
  = sanitize_generated_text text
  ∧ contains (sanitize_generated_text text) "```" = false
  ∧ strip (sanitize_generated_text text) = sanitize_generated_text text.
Proof.
  pose proof (sanitize_no_fence text) as H. split_and!; [|done|apply strip_idemp].
  unfold sanitize_generated_text at 1.
  rewrite (replace_absent _ "```python") by by apply no_fence_no_opener.
  rewrite (replace_absent _ "```") by done.
  apply strip_idemp.
Qed.

(** C8: for every text in which the fence marker does not occur,
    [extract_code_from_markdown] returns the empty text, not the text it
    was given; so it does for code that is already clean. *)
Theorem extract_without_fence_is_empty (text : string) :
  contains text "```" = false → extract_code_from_markdown text = "".
Proof.
  intros H. rewrite extract_scan, scan_lines_closed; [done|].
  apply Forall_forall. intros l Hl.
  destruct (is_python_opener l) eqn:E; [|done].
  by rewrite (opener_contains_fence _ _ Hl E) in H.
Qed.

(** C9: for every text, no line of what [extract_code_from_markdown]
    returns starts, once trimmed, with the fence marker: fence lines are
    never part of the extracted content, however many blocks are opened,
    closed or left open. *)
Theorem extracted_lines_are_not_fences (text : string) :
  Forall (λ l, startswith (strip l) "```" = false)
         (splitlines (extract_code_from_markdown text)).
Proof.
  apply Forall_forall. intros l Hl. rewrite extract_scan in Hl.
  apply splitlines_join in Hl.
  - by apply scan_lines_no_fence in Hl.
  - apply Forall_forall. intros x Hx%scan_lines_subset.
    by eapply splitlines_no_linebreak.
Qed.

(** C2, as the code has it: the flag is set by a line that, once trimmed,
    starts with the python-tagged opener and by no other line; it is
    cleared by any other line that starts with the fence marker, a bare
    closing fence among them; and for a text made of lines without a
    python opener, a python opener, lines [body] none of which starts
    with the fence marker, a closing fence, and lines without a python
    opener, the result is exactly [body] joined by newline: verbatim, in
    order, blank lines included, fence lines left out. *)
Theorem fenced_python_block_extraction
    (text : string) (pre body post : list string) (opener closer : string) :
  splitlines text = pre ++ opener :: body ++ closer :: post →
  Forall (λ l, is_python_opener l = false) pre →
  is_python_opener opener = true →
  Forall (λ l, is_fence l = false) body →
  is_fence closer = true →
  is_python_opener closer = false →
  Forall (λ l, is_python_opener l = false) post →
  (∀ code_lines flag line,
     (extract_step (code_lines, flag) line).2
     = if is_python_opener line then true
       else if is_fence line then false else flag)
  ∧ extract_code_from_markdown text = join nl body.
Proof.
  intros Hsplit Hpre Hop Hbody Hcl Hcl' Hpost. split.
  - intros code_lines flag line. unfold extract_step, is_python_opener, is_fence.
    destruct (startswith (strip line) "```python"); [done|].
    destruct (startswith (strip line) "```"), flag; done.
  - rewrite extract_scan, Hsplit, scan_lines_pre by done.
    cbn [scan_lines]. rewrite Hop, scan_lines_body by done.
    cbn [scan_lines]. rewrite Hcl', Hcl. cbn [andb].
    by rewrite scan_lines_closed, List.app_nil_r.
Qed.

Lemma fenced_python_block_extraction_witness :
  extract_code_from_markdown
    (join nl ["Here it is:"; "```python"; "import unittest"; "";
              "  x = 1"; "```"; "Done."])
  = join nl ["import unittest"; ""; "  x = 1"].
Proof.
  refine (proj2 (fenced_python_block_extraction _
            ["Here it is:"] ["import unittest"; ""; "  x = 1"] ["Done."]
            "```python" "```" _ _ _ _ _ _ _)).
  all: vm_compute; repeat constructor.
Defined.

(** C2 as stated fails: a bare opener does not set the flag, so the line
    between a bare opener and a bare closing fence is not returned. *)
Lemma bare_opener_is_not_recognised :
  let text := join nl ["```"; "a"; "```"] in
  splitlines text = ["```"; "a"; "```"]
  ∧ startswith (strip "```") "```" = true
  ∧ strip "```" = "```"
  ∧ (extract_step ([], false) "```").2 = false
  ∧ extract_code_from_markdown text = ""
  ∧ extract_code_from_markdown text ≠ join nl ["a"].
Proof. vm_compute. repeat split; done. Qed.

Lemma extract_without_fence_is_empty_witness :
  extract_code_from_markdown (join nl ["def f():"; "    return 1"]) = "".
Proof. apply extract_without_fence_is_empty. vm_compute. reflexivity. Defined.

(** ** Effects *)

Lemma add_events_nil (w : world) : add_events w [] = w.
Proof. destruct w. unfold add_events. simpl. by rewrite List.app_nil_r. Qed.

Lemma add_events_app (w : world) (evs evs' : list event) :
  add_events (add_events w evs) evs' = add_events w (evs ++ evs').
Proof. unfold add_events. simpl. by rewrite List.app_assoc. Qed.

Lemma schedule_app (evs evs' : list event) :
  schedule (evs ++ evs') = schedule evs ++ schedule evs'.
Proof. apply List.filter_app. Qed.

Lemma settled_bind {A B} (o : outcome A) (k : A → outcome B) :
  settled o → (∀ a, settled (k a)) → settled (o ≫= k).
Proof.
  intros Ho Hk. destruct o as [a|e]; [apply Hk|].
  intros e' [= <-]. by apply Ho.
Qed.

Lemma settled_ok {A} (a : A) : settled (Ok a).
Proof. by intros e. Qed.

Lemma settled_getattr v name : settled (py_getattr v name).
Proof.
  intros e. destruct v as [| | | |attrs]; simpl; try by intros [= <-].
  destruct (assoc name attrs); [done|]. by intros [= <-].
Qed.

Lemma settled_len v : settled (py_len v).
Proof. intros e. destruct v; simpl; try done; by intros [= <-]. Qed.

Lemma settled_index0 v : settled (py_index0 v).
Proof.
  intros e. destruct v as [|s|items| |]; simpl; try by intros [= <-].
  - destruct s; [by intros [= <-]|done].
  - destruct items; [by intros [= <-]|done].
Qed.

Lemma settled_item v key : settled (py_item v key).
Proof.
  intros e. destruct v as [| | |entries|]; simpl; try by intros [= <-].
  destruct (assoc key entries); [done|]. by intros [= <-].
Qed.

Lemma settled_get v key d : settled (py_get v key d).
Proof.
  intros e. destruct v as [| | |entries|attrs]; simpl; try done;
    try by intros [= <-].
  destruct (assoc "get" attrs); by intros [= <-].
Qed.

Lemma settled_nonempty_attr v name : settled (has_nonempty_attr v name).
Proof.
  unfold has_nonempty_attr. destruct (py_hasattr v name); [|apply settled_ok].
  apply settled_bind; [apply settled_getattr|]. intros g.
  apply settled_bind; [apply settled_len|]. intros n. apply settled_ok.
Qed.

Lemma settled_nonempty_list_item v key : settled (has_nonempty_list_item v key).
Proof.
  unfold has_nonempty_list_item. destruct (py_in key v); [|apply settled_ok].
  apply settled_bind; [apply settled_item|]. intros g.
  destruct (isinstance_list g); [|apply settled_ok].
  apply settled_bind; [apply settled_len|]. intros n. apply settled_ok.
Qed.

Lemma reports_only_ret {A} (a : A) : reports_only (ret a).
Proof.
  exists (Return a), []. split_and!; try done.
  intros w. unfold ret. by rewrite add_events_nil.
Qed.

Lemma reports_only_raise {A} (e : exn) :
  retry_if_exception_type e = false → reports_only (@raise A e).
Proof.
  intros He. exists (Raise e), []. split_and!; try done.
  - intros w. unfold raise. by rewrite add_events_nil.
  - by intros e' [= <-].
Qed.

Lemma reports_only_lift {A} (o : outcome A) : settled o → reports_only (lift o).
Proof.
  intros Ho. destruct o as [a|e]; [apply reports_only_ret|].
  apply reports_only_raise. by apply Ho.
Qed.

Lemma reports_only_logger lvl msg : reports_only (logger lvl msg).
Proof.
  unfold logger. destruct (level_enabled lvl); [|apply reports_only_ret].
  exists (Return tt), [EvLog lvl msg]. split_and!; done.
Qed.

Lemma reports_only_bind {A B} (m : M A) (k : A → M B) :
  reports_only m → (∀ a, reports_only (k a)) → reports_only (bind m k).
Proof.
  intros (r & evs & Hm & Hs & Hr & Hx) Hk. destruct r as [a|e|c].
  - destruct (Hk a) as (r' & evs' & Hm' & Hs' & Hr' & Hx').
    exists r', (evs ++ evs'). split_and!; try done.
    + intros w. unfold bind. by rewrite Hm, Hm', add_events_app.
    + by rewrite schedule_app, Hs, Hs'.
  - exists (Raise e), evs. split_and!; try done.
    + intros w. unfold bind. by rewrite Hm.
    + intros e' [= <-]. by apply Hr.
  - by destruct (Hx c).
Qed.

Lemma extract_text_reports_only (response : pyval) :
  reports_only (extract_text_from_response response).
Proof.
  unfold extract_text_from_response.
  apply reports_only_bind;
    [apply reports_only_lift, settled_nonempty_attr|]. intros [|].
  { apply reports_only_lift.
    repeat (apply settled_bind; [first [apply settled_getattr|apply settled_index0]|intros ?]).
    apply settled_getattr. }
  destruct (py_hasattr response "text");
    [apply reports_only_lift, settled_getattr|].
  destruct (isinstance_dict response).
  - apply reports_only_bind;
      [apply reports_only_lift, settled_nonempty_list_item|]. intros [|].
    { apply reports_only_lift.
      repeat (apply settled_bind; [first [apply settled_item|apply settled_index0]|intros ?]).
      apply settled_get. }
    destruct (py_in "text" response);
      [apply reports_only_lift, settled_get|apply reports_only_ret].
  - apply reports_only_bind;
      [apply reports_only_lift, settled_nonempty_attr|]. intros [|].
    { apply reports_only_lift.
      repeat (apply settled_bind; [first [apply settled_getattr|apply settled_index0]|intros ?]).
      apply settled_getattr. }
    apply reports_only_bind; [apply reports_only_logger|]. intros _.
    by apply reports_only_raise.
Qed.

(** One attempt makes one backend call, writes log records and ends as
    [attempt_result] says. *)
Lemma generate_attempt_run (E : env) (prompt : string) (w : world) :
  ∃ evs,
    generate_attempt E prompt w
    = (attempt_result E prompt (calls w),
       {| files := files w;
          trace := trace w ++ EvGenerateContent prompt :: evs;
          calls := S (calls w); stdin := stdin w |})
    ∧ schedule evs = [].
Proof.
  unfold attempt_result, generate_attempt, try_except, bind, call_generate_content.
  cbn [calls empty_world].
  destruct (generate_content E (calls w) prompt) as [response|e].
  - destruct (extract_text_reports_only response) as (r & evs & Hm & Hs & _ & _).
    rewrite !Hm. destruct r as [v|e|c].
    + exists evs. split; [|done]. unfold add_events. simpl.
      by rewrite <- List.app_assoc.
    + exists (evs ++ [EvLog (match e with ResourceExhausted => ERROR | _ => WARNING end)
                        (match e with ResourceExhausted => MsgQuotaExceeded
                                 | _ => MsgErrorRetrying e end)]).
      split; [|by rewrite schedule_app, Hs].
      destruct e; cbn; by rewrite <- ?List.app_assoc.
    + exists evs. split; [|done]. unfold add_events. simpl.
      by rewrite <- List.app_assoc.
  - exists [EvLog (match e with ResourceExhausted => ERROR | _ => WARNING end)
                  (match e with ResourceExhausted => MsgQuotaExceeded
                           | _ => MsgErrorRetrying e end)].
    split; [|done]. destruct e; cbn; by rewrite <- ?List.app_assoc.
Qed.

Lemma attempt_result_backend_error (E : env) (prompt : string) (c : nat) (e : exn) :
  generate_content E c prompt = Err e → attempt_result E prompt c = Raise e.
Proof.
  intros H. unfold attempt_result, generate_attempt, try_except, bind,
    call_generate_content. cbn [calls empty_world]. rewrite H.
  by destruct e.
Qed.

Lemma attempt_result_not_exit (E : env) (prompt : string) (c : nat) (code : Z) :
  attempt_result E prompt c ≠ Exit code.
Proof.
  unfold attempt_result, generate_attempt, try_except, bind,
    call_generate_content. cbn [calls empty_world].
  destruct (generate_content E c prompt) as [response|e]; [|by destruct e].
  destruct (extract_text_reports_only response) as (r & evs & Hm & _ & _ & Hx).
  rewrite Hm. destruct r as [v|e|c']; [done|by destruct e|by destruct (Hx c')].
Qed.

Lemma attempt_result_retryable (E : env) (prompt : string) (c : nat) (e : exn) :
  attempt_result E prompt c = Raise e → retry_if_exception_type e = true →
  generate_content E c prompt = Err e.
Proof.
  unfold attempt_result, generate_attempt, try_except, bind,
    call_generate_content. cbn [calls empty_world].
  destruct (generate_content E c prompt) as [response|e'].
  - destruct (extract_text_reports_only response) as (r & evs & Hm & _ & Hr & _).
    rewrite Hm. destruct r as [v|e'|c']; [done| |done].
    intros He Hre. assert (e' = e) as -> by (destruct e'; by injection He).
    by rewrite (Hr e eq_refl) in Hre.
  - intros He _. assert (e' = e) as -> by (destruct e'; by injection He). done.
Qed.

Lemma attempts_schedule_succ (prompt : string) (wait n : nat) :
  attempts_schedule prompt wait (S (S n))
  = EvGenerateContent prompt :: EvSleep wait
    :: attempts_schedule prompt wait (S n).
Proof. reflexivity. Qed.

(** The retry loop around [generate_attempt]: the attempts before the last
    one all failed with an exception the policy retries, and the last one
    decides how the call ends. *)
Lemma retrying_generate_attempt (E : env) (prompt : string)
    (wait : nat) (attempts_left : nat) (w : world) :
  ∃ r w' n new,
    retrying attempts_left wait retry_if_exception_type
      (generate_attempt E prompt) w = (r, w')
    ∧ files w' = files w ∧ stdin w' = stdin w
    ∧ calls w' = calls w + n ∧ 1 ≤ n ≤ S attempts_left
    ∧ trace w' = trace w ++ new
    ∧ schedule new = attempts_schedule prompt wait n
    ∧ (∀ i, S i < n →
         ∃ e, attempt_result E prompt (calls w + i) = Raise e
              ∧ retry_if_exception_type e = true)
    ∧ match attempt_result E prompt (calls w + (n - 1)) with
      | Return v => r = Return v
      | Raise e =>
          if retry_if_exception_type e
          then n = S attempts_left ∧ r = Raise (RetryError e)
          else r = Raise e
      | Exit _ => False
      end.
Proof.
  assert (Hone : ∀ evs, schedule evs = [] →
            schedule (EvGenerateContent prompt :: evs)
            = attempts_schedule prompt wait 1).
  { intros evs Hevs. change (EvGenerateContent prompt :: evs)
      with ([EvGenerateContent prompt] ++ evs).
    by rewrite schedule_app, Hevs. }
  assert (Hlast1 : ∀ w, calls w + (1 - 1) = calls w) by (intros; lia).
  revert w. induction attempts_left as [|left IH]; intros w;
    destruct (generate_attempt_run E prompt w) as (evs & Hrun & Hevs);
    cbn [retrying]; rewrite Hrun;
    pose proof (attempt_result_not_exit E prompt (calls w)) as Hnx;
    destruct (attempt_result E prompt (calls w)) as [v|e|c] eqn:Hres;
    try (by destruct (Hnx c));
    try destruct (retry_if_exception_type e) eqn:He.
  all: try (eexists _, _, 1, _; rewrite Hlast1, Hres, ?He;
            split; [reflexivity|]; cbn [files trace calls stdin];
            split_and!;
            first [done | lia | by apply Hone | by (intros; lia)]).
  unfold sleep, emit. cbn [files trace calls stdin].
  match goal with |- context [retrying left wait _ _ ?w1] =>
    destruct (IH w1)
      as (r & w' & n & new & Hr & Hf & Hi & Hc & Hn & Ht & Hs & Hpre & Hlast)
  end.
  cbn [files trace calls stdin] in *.
  exists r, w', (S n), (EvGenerateContent prompt :: evs ++ EvSleep wait :: new).
  split_and!; try done; try lia.
  - rewrite Ht. by rewrite <- !List.app_assoc.
  - change (EvGenerateContent prompt :: evs ++ EvSleep wait :: new)
      with ([EvGenerateContent prompt] ++ evs ++ [EvSleep wait] ++ new).
    rewrite !schedule_app, Hevs, Hs.
    destruct n as [|n]; [lia|]. by rewrite attempts_schedule_succ.
  - intros [|i] Hlt.
    + exists e. by rewrite Nat.add_0_r.
    + destruct (Hpre i) as (e' & He' & Hre'); [lia|].
      exists e'. split; [|done]. rewrite <- He'. f_equal. lia.
  - replace (calls w + (S n - 1)) with (S (calls w) + (n - 1)) by lia.
    destruct (attempt_result E prompt (S (calls w) + (n - 1))); [done| |done].
    destruct (retry_if_exception_type e0); [|done].
    by destruct Hlast as [-> ->].
Qed.

(** C3: [generate_test_code] makes between one and three backend calls,
    with a pause of 5 between consecutive calls and nothing else between
    them but log records; every attempt that is followed by another one
    failed with the backend's quota error or a timeout; when the backend
    answers the three calls with the quota error the call raises after the
    third one; and an attempt that fails with any other exception, be it
    from the backend or from the normalization of its response, is the
    last: that exception leaves the call as it is. *)
Theorem generate_test_code_retry_policy (E : env) (prompt : string) (w : world) :
  ∃ r w' n new,
    generate_test_code E prompt w = (r, w')
    ∧ calls w' = calls w + n ∧ 1 ≤ n ≤ 3
    ∧ trace w' = trace w ++ new
    ∧ schedule new = attempts_schedule prompt 5 n
    ∧ (∀ i, S i < n →
         generate_content E (calls w + i) prompt = Err ResourceExhausted
         ∨ generate_content E (calls w + i) prompt = Err TimeoutError)
    ∧ ((∀ i, i < 3 →
          generate_content E (calls w + i) prompt = Err ResourceExhausted) →
       n = 3 ∧ r = Raise (RetryError ResourceExhausted))
    ∧ (∀ i e, i < n →
         attempt_result E prompt (calls w + i) = Raise e →
         retry_if_exception_type e = false →
         n = S i ∧ r = Raise e)
    ∧ (∀ e, generate_content E (calls w) prompt = Err e →
         retry_if_exception_type e = false →
         n = 1 ∧ r = Raise e).
Proof.
  unfold generate_test_code, stop_after_attempt, wait_fixed.
  destruct (retrying_generate_attempt E prompt 5 (3 - 1) w)
    as (r & w' & n & new & Hr & _ & _ & Hc & Hn & Ht & Hs & Hpre & Hlast).
  exists r, w', n, new. split_and!; try done; try lia.
  - intros i Hi. destruct (Hpre i Hi) as (e & He & Hre).
    apply attempt_result_retryable in He; [|done].
    destruct e; try done; auto.
  - intros Hq.
    rewrite (attempt_result_backend_error E prompt _ ResourceExhausted) in Hlast
      by (apply Hq; lia).
    cbn in Hlast. by destruct Hlast.
  - intros i e Hi He Hre.
    assert (S i = n) as <-.
    { destruct (decide (S i < n)) as [Hlt|]; [|lia].
      destruct (Hpre i Hlt) as (e' & He' & Hre'). congruence. }
    split; [done|].
    replace (calls w + (S i - 1)) with (calls w + i) in Hlast by lia.
    by rewrite He, Hre in Hlast.
  - intros e He Hre.
    assert (n = 1) as ->.
    { destruct (decide (1 < n)) as [Hlt|]; [|lia].
      destruct (Hpre 0 Hlt) as (e' & He' & Hre').
      rewrite Nat.add_0_r in He'.
      rewrite (attempt_result_backend_error _ _ _ _ He) in He'. congruence. }
    split; [done|].
    replace (calls w + (1 - 1)) with (calls w) in Hlast by lia.
    by rewrite (attempt_result_backend_error _ _ _ _ He), Hre in Hlast.
Qed.

Lemma generate_test_code_retry_policy_witness :
  ∃ w', generate_test_code env_over_quota "prompt" demo_world
        = (Raise (RetryError ResourceExhausted), w')
        ∧ calls w' = 3.
Proof.
  destruct (generate_test_code_retry_policy env_over_quota "prompt" demo_world)
    as (r & w' & n & new & Hr & Hc & _ & _ & _ & _ & Hq & _ & _).
  destruct Hq as [-> ->]; [done|]. by exists w'.
Defined.

(** ** Response normalization *)

Lemma hasattr_some (attrs : list (string * pyval)) (name : string) (v : pyval) :
  assoc name attrs = Some v → py_hasattr (PyObj attrs) name = true.
Proof. intros H. simpl. rewrite H. by apply bool_decide_eq_true. Qed.

Lemma hasattr_none (attrs : list (string * pyval)) (name : string) :
  assoc name attrs = None → py_hasattr (PyObj attrs) name = false.
Proof.
  intros H. simpl. rewrite H. apply bool_decide_eq_false. by intros [? ?].
Qed.

(** X5: first probe: a non-empty [generations] attribute wins over everything
    else the object has. *)
Lemma extract_text_generations_first
    (attrs : list (string * pyval)) (first t : pyval) (rest : list pyval)
    (w : world) :
  assoc "generations" attrs = Some (PyList (first :: rest)) →
  py_getattr first "text" = Ok t →
  extract_text_from_response (PyObj attrs) w = (Return t, w).
Proof.
  intros Hg Ht. unfold extract_text_from_response, has_nonempty_attr.
  rewrite (hasattr_some _ _ _ Hg). unfold bind, lift. cbn -[assoc]. rewrite Hg. cbn -[assoc].
  by rewrite Ht.
Qed.

(** X6: second probe: a [text] attribute, when [generations] is absent or an
    empty list. *)
Lemma extract_text_text_attr_second
    (attrs : list (string * pyval)) (t : pyval) (w : world) :
  assoc "generations" attrs = None
  ∨ assoc "generations" attrs = Some (PyList []) →
  assoc "text" attrs = Some t →
  extract_text_from_response (PyObj attrs) w = (Return t, w).
Proof.
  intros Hg Ht. unfold extract_text_from_response, has_nonempty_attr.
  destruct Hg as [Hg|Hg].
  - rewrite (hasattr_none _ _ Hg). unfold bind, lift. cbn -[py_hasattr].
    rewrite (hasattr_some _ _ _ Ht). cbn. by rewrite Ht.
  - rewrite (hasattr_some _ _ _ Hg). unfold bind, lift. cbn -[py_hasattr].
    rewrite Hg. cbn -[py_hasattr].
    rewrite (hasattr_some _ _ _ Ht). cbn. by rewrite Ht.
Qed.

(** X7: third probe: a dictionary with a non-empty [generations] list, then one
    with a [text] key. *)
Lemma extract_text_dict_generations
    (entries first : list (string * pyval)) (rest : list pyval) (w : world) :
  assoc "generations" entries = Some (PyList (PyDict first :: rest)) →
  extract_text_from_response (PyDict entries) w
  = (Return (from_option id (PyStr "") (assoc "text" first)), w).
Proof.
  intros Hg. unfold extract_text_from_response, has_nonempty_list_item.
  unfold bind, lift. cbn -[assoc]. rewrite Hg.
  by rewrite bool_decide_eq_true_2 by eauto.
Qed.

Lemma extract_text_dict_text
    (entries : list (string * pyval)) (t : pyval) (w : world) :
  assoc "generations" entries = None →
  assoc "text" entries = Some t →
  extract_text_from_response (PyDict entries) w = (Return t, w).
Proof.
  intros Hg Ht. unfold extract_text_from_response, has_nonempty_list_item.
  unfold bind, lift. cbn -[assoc]. rewrite Hg, Ht.
  rewrite bool_decide_eq_false_2 by (by intros [? ?]).
  rewrite bool_decide_eq_true_2 by eauto. done.
Qed.

(** X8: fourth probe: a non-empty [choices] attribute, for an object that has
    neither [generations] nor [text]. *)
Lemma extract_text_choices_last
    (attrs : list (string * pyval)) (first t : pyval) (rest : list pyval)
    (w : world) :
  assoc "generations" attrs = None →
  assoc "text" attrs = None →
  assoc "choices" attrs = Some (PyList (first :: rest)) →
  py_getattr first "text" = Ok t →
  extract_text_from_response (PyObj attrs) w = (Return t, w).
Proof.
  intros Hg Ht Hc Hf. unfold extract_text_from_response, has_nonempty_attr.
  rewrite (hasattr_none _ _ Hg), (hasattr_none _ _ Ht), (hasattr_some _ _ _ Hc).
  unfold bind, lift. cbn -[assoc]. rewrite Hc. cbn -[assoc]. by rewrite Hf.
Qed.

(** An object with none of the three attributes is reported and refused. *)
Lemma extract_text_unrecognized_object
    (attrs : list (string * pyval)) (w : world) :
  assoc "generations" attrs = None →
  assoc "text" attrs = None →
  assoc "choices" attrs = None →
  extract_text_from_response (PyObj attrs) w
  = (Raise (AttributeError unrecognized_shape_msg),
     add_events w [EvLog ERROR MsgNoTextInResponse]).
Proof.
  intros Hg Ht Hc. unfold extract_text_from_response, has_nonempty_attr.
  by rewrite (hasattr_none _ _ Hg), (hasattr_none _ _ Ht), (hasattr_none _ _ Hc).
Qed.

(** A dictionary with neither key falls out of the inner [if]/[elif]: the
    function ends without a [return] and without reaching the final [else]. *)
Lemma extract_text_dict_without_keys
    (entries : list (string * pyval)) (w : world) :
  assoc "generations" entries = None →
  assoc "text" entries = None →
  extract_text_from_response (PyDict entries) w = (Return PyNone, w).
Proof.
  intros Hg Ht. unfold extract_text_from_response, has_nonempty_list_item.
  unfold bind, lift. cbn -[assoc]. rewrite Hg, Ht.
  by rewrite !bool_decide_eq_false_2 by (by intros [? ?]).
Qed.

(** C1, where the code departs from it: the empty dictionary matches none
    of the recognized shapes, yet nothing is raised and nothing is logged;
    the result is [None], and the model client hands that [None] to its
    caller after a single attempt. *)
Theorem extract_text_from_response_empty_dict (w : world) :
  extract_text_from_response (PyDict []) w = (Return PyNone, w)
  ∧ (generate_test_code (env_answering (PyDict [])) "prompt" w).1
    = Return PyNone
  ∧ calls (generate_test_code (env_answering (PyDict [])) "prompt" w).2
    = S (calls w).
Proof. split_and!; reflexivity. Qed.

(** ** The stages *)

Lemma generate_test_code_frame (E : env) (prompt : string) (w : world)
    (r : result pyval) (w' : world) :
  generate_test_code E prompt w = (r, w') →
  files w' = files w ∧ stdin w' = stdin w.
Proof.
  unfold generate_test_code.
  destruct (retrying_generate_attempt E prompt wait_fixed
              (stop_after_attempt - 1) w)
    as (r0 & w0 & n & new & Hr & Hf & Hi & _).
  rewrite Hr. by intros [= <- <-].
Qed.





(** C5: one turn of the repair loop on an artifact whose repair output,
    extracted and sanitized, is refused by the parser with a syntax error:
    the turn ends normally, the syntax error is logged, nothing is
    written, and the artifact holds what it held before. *)
Theorem repair_keeps_artifact_on_syntax_error
    (E : env) (test_file code text msg : string) (w w1 : world) :
  files w !! test_file = Some code →
  generate_test_code E (repair_prompt code) w = (Return (PyStr text), w1) →
  py_compile E (sanitize_generated_text (extract_code_from_markdown text))
  = Err (SyntaxError msg) →
  ∃ w', repair_one E test_file w = (Return tt, w')
        ∧ files w' = files w
        ∧ files w' !! test_file = Some code
        ∧ trace w' = trace w1
                     ++ [EvLog ERROR (MsgRepairSyntaxError test_file (SyntaxError msg))].
Proof.
  intros Hf Hg Hc. destruct (generate_test_code_frame _ _ _ _ _ Hg) as [Hfr _].
  eexists. split.
  - unfold repair_one, bind, open_read, try_except. rewrite Hf, Hg.
    cbn -[extract_code_from_markdown sanitize_generated_text].
    rewrite Hc. reflexivity.
  - cbn [files trace]. by rewrite Hfr.
Qed.

Lemma repair_keeps_artifact_on_syntax_error_witness :
  ∃ w', repair_one demo_env "/app/tests/test_foo.py" demo_world_approved
        = (Return tt, w')
        ∧ files w' !! "/app/tests/test_foo.py" = Some "import unittest".
Proof.
  destruct (repair_keeps_artifact_on_syntax_error demo_env
              "/app/tests/test_foo.py" "import unittest"
              (fenced ["import unittest"; "def ("]) "invalid syntax"
              demo_world_approved
              (generate_test_code demo_env (repair_prompt "import unittest")
                 demo_world_approved).2)
    as (w' & Hr & _ & Hf & _); [by vm_compute..|].
  by exists w'.
Defined.

(** ** Discovery *)

Lemma endswith_unfold (s p : string) :
  endswith s p
  = String.eqb s p || match s with "" => false | String _ s' => endswith s' p end.
Proof. by destruct s. Qed.

Lemma endswith_suffix (s p : string) :
  endswith s p = true ↔ ∃ a, s = a +:+ p.
Proof.
  split.
  - induction s as [|c s IH]; rewrite endswith_unfold;
      intros [H|H]%orb_prop; try done.
    + apply String.eqb_eq in H as ->. by exists "".
    + apply String.eqb_eq in H as ->. by exists "".
    + destruct (IH H) as [a ->]. by exists (String c a).
  - intros [a ->]. induction a as [|c a IH]; rewrite endswith_unfold.
    + by rewrite str_app_nil_l, String.eqb_refl.
    + rewrite str_app_cons, IH. apply orb_true_r.
Qed.

(** A qualifying file: the name ends in [.py] and is not [__init__.py]. *)
Lemma is_source_file_spec (file : string) :
  is_source_file file = true
  ↔ (∃ stem, file = stem +:+ ".py") ∧ file ≠ "__init__.py".
Proof.
  unfold is_source_file. rewrite andb_true_iff, negb_true_iff.
  by rewrite endswith_suffix, String.eqb_neq.
Qed.

Lemma discover_nil (walk : list (string * list string * list string)) :
  (∀ root dirs names file,
     (root, dirs, names) ∈ walk → file ∈ names → is_source_file file = false) →
  discover walk = [].
Proof.
  induction walk as [|[[root dirs] names] walk IH]; intros H; [done|].
  unfold discover. cbn [flat_map]. fold (discover walk).
  rewrite IH by (intros; eapply H; [right|]; eauto).
  assert (List.filter is_source_file names = []) as ->; [|done].
  assert (∀ file, file ∈ names → is_source_file file = false) as Hn
    by (intros; eapply H; [left|]; eauto).
  clear -Hn. induction names as [|f names IH]; [done|]. cbn [List.filter].
  rewrite (Hn f) by left. apply IH. intros. apply Hn. by right.
Qed.

(** C6, as the code has it: when the source directory does not exist,
    [main] logs an error and exits with status 1 before anything else
    happens; when it exists, [os.makedirs] makes the test directory and
    the walk finds no qualifying file, [main] logs a warning and exits
    with status 0, and no file is written; when it exists and
    [os.makedirs] fails, the exception of [os.makedirs] ends [main]
    before the walk, whatever the source directory holds. *)
Theorem discovery_decides_termination (E : env) (w : world) :
  (path_exists E (src_dir E) = false →
   main E w = (Exit 1, add_events w [EvLog ERROR (MsgSrcDirMissing (src_dir E))])
   ∧ exit_status (main E w).1 ≠ 0%Z)
  ∧ (path_exists E (src_dir E) = true →
     makedirs_error E (test_dir E) = None →
     (∀ root dirs names file,
        (root, dirs, names) ∈ os_walk E (src_dir E) → file ∈ names →
        is_source_file file = false) →
     main E w = (Exit 0, add_events w [EvMakedirs (test_dir E);
                                       EvLog WARNING MsgNoPythonFiles])
     ∧ exit_status (main E w).1 = 0%Z
     ∧ files (main E w).2 = files w)
  ∧ (∀ kind,
       path_exists E (src_dir E) = true →
       makedirs_error E (test_dir E) = Some kind →
       main E w = (Raise (FileError kind), w)
       ∧ exit_status (main E w).1 ≠ 0%Z).
Proof.
  split_and!.
  - intros H. unfold main. rewrite H. done.
  - intros H Hmk Hnone. unfold main. rewrite H. cbn [negb].
    unfold bind at 1, os_makedirs. rewrite Hmk, (discover_nil _ Hnone).
    cbn. unfold add_events. cbn. by rewrite <- List.app_assoc.
  - intros kind H Hmk. unfold main. rewrite H. cbn [negb].
    unfold bind at 1, os_makedirs. by rewrite Hmk.
Qed.

Lemma discovery_decides_termination_witness :
  (main env_without_src demo_world).1 = Exit 1
  ∧ (main env_without_modules demo_world).1 = Exit 0
  ∧ files (main env_without_modules demo_world).2 = files demo_world
  ∧ (main env_tests_is_a_file demo_world).1 = Raise (FileError FileExistsError).
Proof.
  destruct (discovery_decides_termination env_without_src demo_world)
    as (H1 & _ & _).
  destruct (discovery_decides_termination env_without_modules demo_world)
    as (_ & H2 & _).
  destruct (discovery_decides_termination env_tests_is_a_file demo_world)
    as (_ & _ & H3).
  destruct H1 as [-> _]; [done|].
  destruct (H3 FileExistsError) as [-> _]; [done..|].
  destruct H2 as (-> & _ & ?); [done|done| |done].
  intros root dirs names file Hw Hf. vm_compute in Hw.
  apply list_elem_of_singleton in Hw. injection Hw as -> -> ->.
  repeat (apply elem_of_cons in Hf as [->|Hf]; [by vm_compute|]).
  by apply elem_of_nil in Hf.
Defined.

(** C6 as stated fails: the source directory exists and holds no
    qualifying file, yet a regular file in the place of the test directory
    makes [os.makedirs] raise; the run ends with that exception and a
    non-zero status, and the warning is never logged. *)
Lemma makedirs_failure_precedes_discovery :
  path_exists env_tests_is_a_file (src_dir env_tests_is_a_file) = true
  ∧ discover (os_walk env_tests_is_a_file (src_dir env_tests_is_a_file)) = []
  ∧ main env_tests_is_a_file demo_world
    = (Raise (FileError FileExistsError), demo_world)
  ∧ exit_status (main env_tests_is_a_file demo_world).1 ≠ 0%Z
  ∧ EvLog WARNING MsgNoPythonFiles
    ∉ trace (main env_tests_is_a_file demo_world).2.
Proof.
  split_and!; [reflexivity|reflexivity|reflexivity|by vm_compute|].
  vm_compute. by intros ?%elem_of_nil.
Qed.

(** ** Repair *)

(** C7: when the operator answers anything but yes (in any letter case),
    the repair stage only reads that answer: no backend call is made and
    every file, each failed artifact among them, holds what it held; so it
    does after the closing log record with which the run ends. *)
Theorem declined_repair_changes_nothing
    (E : env) (failed_tests : list string) (approval : string)
    (rest : list string) (w : world) :
  failed_tests ≠ [] →
  stdin w = approval :: rest →
  lower approval ≠ "yes" →
  ∃ w', repair_stage E failed_tests w = (Return tt, w')
        ∧ files w' = files w
        ∧ (∀ test_file, test_file ∈ failed_tests →
             files w' !! test_file = files w !! test_file)
        ∧ calls w' = calls w
        ∧ trace w' = trace w ++ [EvInput approval_prompt]
        ∧ files ((repair_stage E failed_tests ;; logger INFO MsgDone) w).2
          = files w.
Proof.
  intros Hne Hin Hno. destruct failed_tests as [|t ts]; [done|].
  assert (repair_stage E (t :: ts) w
          = (Return tt,
             {| files := files w; trace := trace w ++ [EvInput approval_prompt];
                calls := calls w; stdin := rest |})) as Hrun.
  { unfold repair_stage, bind, py_input. rewrite Hin.
    apply String.eqb_neq in Hno. by rewrite Hno. }
  eexists. split; [exact Hrun|]. split_and!; try done.
  unfold bind. by rewrite Hrun.
Qed.

Lemma declined_repair_changes_nothing_witness :
  ∃ w', repair_stage demo_env ["/app/tests/test_foo.py"] demo_world = (Return tt, w')
        ∧ files w' = files demo_world.
Proof.
  destruct (declined_repair_changes_nothing demo_env ["/app/tests/test_foo.py"]
              "no" [] demo_world) as (w' & Hr & Hf & _); [done..|].
  by exists w'.
Defined.

(** * Further properties *)

(** ** More on the extraction loop *)

Lemma scan_lines_open_body (body : list string) :
  Forall (λ l, is_fence l = false) body → scan_lines true body = body.
Proof.
  intros H. rewrite <- (List.app_nil_r body) at 1.
  by rewrite scan_lines_body, List.app_nil_r.
Qed.

(** X1: a fence that is opened and never closed: every line after the opener is
    returned, provided none of them starts with the fence marker once
    trimmed. *)
Theorem extract_unterminated_fence
    (text : string) (pre body : list string) (opener : string) :
  splitlines text = pre ++ opener :: body →
  Forall (λ l, is_python_opener l = false) pre →
  is_python_opener opener = true →
  Forall (λ l, is_fence l = false) body →
  extract_code_from_markdown text = join nl body.
Proof.
  intros Hsplit Hpre Hop Hbody.
  rewrite extract_scan, Hsplit, scan_lines_pre by done.
  cbn [scan_lines]. by rewrite Hop, scan_lines_open_body.
Qed.

Lemma extract_unterminated_fence_witness :
  extract_code_from_markdown
    (join nl ["Sure:"; "```python"; "import unittest"; ""; "x = 1"])
  = join nl ["import unittest"; ""; "x = 1"].
Proof.
  apply (extract_unterminated_fence _ ["Sure:"] _ "```python");
    vm_compute; repeat constructor.
Defined.

(** X2: after a block has been closed the loop goes on with the flag down,
    and what it keeps from the rest of the text is appended to the lines
    of the block: several blocks are returned one after the other. *)
Theorem extract_block_then_rest
    (text : string) (pre body rest : list string) (opener closer : string) :
  splitlines text = pre ++ opener :: body ++ closer :: rest →
  Forall (λ l, is_python_opener l = false) pre →
  is_python_opener opener = true →
  Forall (λ l, is_fence l = false) body →
  is_fence closer = true →
  is_python_opener closer = false →
  extract_code_from_markdown text
  = join nl (body ++ (fold_left extract_step rest ([], false)).1).
Proof.
  intros Hsplit Hpre Hop Hbody Hcl Hcl'.
  rewrite extract_scan, Hsplit, scan_lines_pre by done.
  cbn [scan_lines]. rewrite Hop, scan_lines_body by done.
  cbn [scan_lines]. rewrite Hcl', Hcl. cbn [andb].
  by rewrite extract_fold.
Qed.

Lemma extract_block_then_rest_witness :
  extract_code_from_markdown
    (join nl ["```python"; "a = 1"; "```"; "and"; "```python"; "b = 2"; "```"])
  = join nl ["a = 1"; "b = 2"].
Proof.
  refine (extract_block_then_rest _ [] ["a = 1"]
            ["and"; "```python"; "b = 2"; "```"] "```python" "```" _ _ _ _ _ _);
    vm_compute; repeat constructor.
Defined.

Lemma scan_lines_sublist flag (lines : list string) :
  scan_lines flag lines `sublist_of` lines.
Proof.
  revert flag. induction lines as [|line lines IH]; intros flag; simpl; [done|].
  destruct (is_python_opener line); [by apply sublist_cons|].
  destruct (is_fence line && flag); [by apply sublist_cons|].
  destruct flag; [by apply sublist_skip|by apply sublist_cons].
Qed.

(** X3: the lines the loop keeps are lines of the text, in their order and
    unchanged, and none of them starts with the fence marker. *)
Theorem extracted_lines_sublist (text : string) :
  (fold_left extract_step (splitlines text) ([], false)).1
    `sublist_of` splitlines text
  ∧ Forall (λ l, is_fence l = false)
           (fold_left extract_step (splitlines text) ([], false)).1.
Proof.
  rewrite extract_fold. cbn [app]. split; [apply scan_lines_sublist|].
  apply Forall_forall. intros l Hl. by eapply scan_lines_no_fence.
Qed.

(** X4: on a text without the fence marker [sanitize_generated_text] only
    trims the surrounding whitespace. *)
Theorem sanitize_clean_text_is_strip (text : string) :
  contains text "```" = false → sanitize_generated_text text = strip text.
Proof.
  intros H. unfold sanitize_generated_text.
  rewrite (replace_absent _ "```python") by by apply no_fence_no_opener.
  by rewrite (replace_absent _ "```").
Qed.

Lemma sanitize_clean_text_is_strip_witness :
  sanitize_generated_text "  x = 1  " = "x = 1".
Proof. exact (sanitize_clean_text_is_strip "  x = 1  " eq_refl). Defined.

(** ** More on response normalization *)

Lemma extract_text_generations_first_witness :
  extract_text_from_response
    (PyObj [("text", PyStr "direct");
            ("generations", PyList [PyObj [("text", PyStr "first")];
                                    PyObj [("text", PyStr "second")]])])
    demo_world
  = (Return (PyStr "first"), demo_world).
Proof.
  by apply (extract_text_generations_first _ (PyObj [("text", PyStr "first")])
              _ [PyObj [("text", PyStr "second")]]).
Defined.

Lemma extract_text_text_attr_second_witness :
  extract_text_from_response
    (PyObj [("generations", PyList []); ("text", PyStr "direct");
            ("choices", PyList [PyObj [("text", PyStr "choice")]])])
    demo_world
  = (Return (PyStr "direct"), demo_world).
Proof. apply extract_text_text_attr_second; [by right|done]. Defined.

Lemma extract_text_dict_generations_witness :
  extract_text_from_response
    (PyDict [("text", PyStr "direct");
             ("generations", PyList [PyDict [("role", PyStr "model")]])])
    demo_world
  = (Return (PyStr ""), demo_world).
Proof. by apply (extract_text_dict_generations _ [("role", PyStr "model")] []). Defined.


Lemma extract_text_choices_last_witness :
  extract_text_from_response
    (PyObj [("choices", PyList [PyObj [("text", PyStr "choice")]])])
    demo_world
  = (Return (PyStr "choice"), demo_world).
Proof.
  by apply (extract_text_choices_last _ (PyObj [("text", PyStr "choice")]) _ []).
Defined.

(** X9: whatever is not a dictionary and passes none of the three attribute
    probes is reported and refused. *)
Theorem extract_text_unrecognized_raises (response : pyval) (w : world) :
  isinstance_dict response = false →
  has_nonempty_attr response "generations" = Ok false →
  py_hasattr response "text" = false →
  has_nonempty_attr response "choices" = Ok false →
  extract_text_from_response response w
  = (Raise (AttributeError unrecognized_shape_msg),
     add_events w [EvLog ERROR MsgNoTextInResponse]).
Proof.
  intros Hd Hg Ht Hc. unfold extract_text_from_response.
  by rewrite Hg, Ht, Hd, Hc.
Qed.

Lemma extract_text_unrecognized_raises_witness :
  (extract_text_from_response PyNone demo_world).1
  = Raise (AttributeError unrecognized_shape_msg)
  ∧ (extract_text_from_response (PyObj [("choices", PyList [])]) demo_world).1
    = Raise (AttributeError unrecognized_shape_msg).
Proof.
  split.
  - by rewrite (extract_text_unrecognized_raises PyNone demo_world).
  - by rewrite (extract_text_unrecognized_raises
                  (PyObj [("choices", PyList [])]) demo_world).
Defined.

(** X10: the first probe that matches decides, also when reading the text then
    fails: there is no fall back to a later shape. *)
Theorem extract_text_first_match_failure
    (attrs : list (string * pyval)) (first : pyval) (rest : list pyval)
    (e : exn) (w : world) :
  assoc "generations" attrs = Some (PyList (first :: rest)) →
  py_getattr first "text" = Err e →
  extract_text_from_response (PyObj attrs) w = (Raise e, w).
Proof.
  intros Hg Ht. unfold extract_text_from_response, has_nonempty_attr.
  rewrite (hasattr_some _ _ _ Hg). unfold bind, lift. cbn -[assoc].
  rewrite Hg. cbn -[assoc]. by rewrite Ht.
Qed.

Lemma extract_text_first_match_failure_witness :
  extract_text_from_response
    (PyObj [("generations", PyList [PyStr "raw"]); ("text", PyStr "direct")])
    demo_world
  = (Raise (no_attribute "text"), demo_world).
Proof. by apply (extract_text_first_match_failure _ (PyStr "raw") []). Defined.

(** X11: a [generations] attribute that has no length stops the probing with a
    [TypeError], whatever else the response has. *)
Theorem extract_text_unsized_generations
    (attrs : list (string * pyval)) (g : pyval) (w : world) :
  assoc "generations" attrs = Some g →
  py_len g = Err TypeError →
  extract_text_from_response (PyObj attrs) w = (Raise TypeError, w).
Proof.
  intros Hg Hl. unfold extract_text_from_response, has_nonempty_attr.
  rewrite (hasattr_some _ _ _ Hg). unfold bind, lift. cbn -[assoc py_len].
  rewrite Hg. cbn -[assoc py_len]. by rewrite Hl.
Qed.

Lemma extract_text_unsized_generations_witness :
  extract_text_from_response
    (PyObj [("generations", PyNone); ("text", PyStr "direct")]) demo_world
  = (Raise TypeError, demo_world).
Proof. by apply (extract_text_unsized_generations _ PyNone). Defined.

(** ** More on the retry policy *)

(** X12: the call returns what the first successful attempt returns, after as
    many backend calls as it took and with a pause of 5 before each retry,
    provided every earlier attempt met a quota error or a timeout. *)
Theorem generate_test_code_recovers
    (E : env) (prompt : string) (w : world) (i : nat) (v : pyval) :
  i < 3 →
  (∀ j, j < i →
     generate_content E (calls w + j) prompt = Err ResourceExhausted
     ∨ generate_content E (calls w + j) prompt = Err TimeoutError) →
  attempt_result E prompt (calls w + i) = Return v →
  ∃ w' new,
    generate_test_code E prompt w = (Return v, w')
    ∧ calls w' = calls w + S i
    ∧ trace w' = trace w ++ new
    ∧ schedule new = attempts_schedule prompt 5 (S i).
Proof.
  intros Hi Hearlier Hv. unfold generate_test_code, stop_after_attempt, wait_fixed.
  destruct (retrying_generate_attempt E prompt 5 (3 - 1) w)
    as (r & w' & n & new & Hr & _ & _ & Hc & Hn & Ht & Hs & Hpre & Hlast).
  assert (n = S i) as ->.
  { destruct (decide (n - 1 < i)) as [Hlt|Hge].
    - destruct (Hearlier _ Hlt) as [He|He];
        rewrite (attempt_result_backend_error _ _ _ _ He) in Hlast;
        cbn in Hlast; lia.
    - destruct (decide (S i < n)) as [Hlt|]; [|lia].
      destruct (Hpre i Hlt) as (e & He & _). congruence. }
  replace (calls w + (S i - 1)) with (calls w + i) in Hlast by lia.
  rewrite Hv in Hlast. subst r. by exists w', new.
Qed.


Lemma generate_test_code_recovers_witness :
  ∃ w', generate_test_code env_flaky "prompt" demo_world
        = (Return (PyStr (fenced ["import unittest"])), w')
        ∧ calls w' = 3.
Proof.
  edestruct (generate_test_code_recovers env_flaky "prompt" demo_world 2
               (PyStr (fenced ["import unittest"])))
    as (w' & new & Hr & Hc & _); [lia| |done|by exists w'].
  intros [|[|j]] Hj; [by left|by right|lia].
Defined.

(** X13: when the three attempts all meet a quota error or a timeout, the call
    raises [RetryError] around the exception of the third. *)
Theorem generate_test_code_exhausted
    (E : env) (prompt : string) (w : world) (e : exn) :
  (∀ j, j < 2 →
     generate_content E (calls w + j) prompt = Err ResourceExhausted
     ∨ generate_content E (calls w + j) prompt = Err TimeoutError) →
  generate_content E (calls w + 2) prompt = Err e →
  retry_if_exception_type e = true →
  ∃ w' new,
    generate_test_code E prompt w = (Raise (RetryError e), w')
    ∧ calls w' = calls w + 3
    ∧ trace w' = trace w ++ new
    ∧ schedule new = attempts_schedule prompt 5 3.
Proof.
  intros Hearlier Hthird Hre.
  unfold generate_test_code, stop_after_attempt, wait_fixed.
  destruct (retrying_generate_attempt E prompt 5 (3 - 1) w)
    as (r & w' & n & new & Hr & _ & _ & Hc & Hn & Ht & Hs & Hpre & Hlast).
  assert (n = 3) as ->.
  { destruct (decide (n - 1 < 2)) as [Hlt|]; [|lia].
    destruct (Hearlier _ Hlt) as [He|He];
      rewrite (attempt_result_backend_error _ _ _ _ He) in Hlast;
      cbn in Hlast; lia. }
  replace (calls w + (3 - 1)) with (calls w + 2) in Hlast by lia.
  rewrite (attempt_result_backend_error _ _ _ _ Hthird), Hre in Hlast.
  destruct Hlast as [_ ->]. by exists w', new.
Qed.


Lemma generate_test_code_exhausted_witness :
  ∃ w', generate_test_code env_timing_out "prompt" demo_world
        = (Raise (RetryError TimeoutError), w').
Proof.
  edestruct (generate_test_code_exhausted env_timing_out "prompt" demo_world
               TimeoutError)
    as (w' & new & Hr & _); [|done|done|by exists w'].
  intros [|[|j]] Hj; [by left|by right|lia].
Defined.

(** X14: an exception the policy does not retry is logged as a warning that
    announces a retry, and then leaves the call at once: one backend call,
    one log record, no pause. *)
Theorem generate_test_code_warns_then_propagates
    (E : env) (prompt : string) (w : world) (e : exn) :
  generate_content E (calls w) prompt = Err e →
  retry_if_exception_type e = false →
  generate_test_code E prompt w
  = (Raise e,
     {| files := files w;
        trace := trace w ++ [EvGenerateContent prompt;
                             EvLog WARNING (MsgErrorRetrying e)];
        calls := S (calls w); stdin := stdin w |}).
Proof.
  intros He Hre. unfold generate_test_code, stop_after_attempt. cbn [Nat.sub retrying].
  assert (generate_attempt E prompt w
          = (Raise e,
             {| files := files w;
                trace := trace w ++ [EvGenerateContent prompt;
                                     EvLog WARNING (MsgErrorRetrying e)];
                calls := S (calls w); stdin := stdin w |})) as ->.
  { unfold generate_attempt, try_except, bind, call_generate_content.
    rewrite He. destruct e; try done; cbn; by rewrite <- List.app_assoc. }
  by rewrite Hre.
Qed.

Lemma generate_test_code_warns_then_propagates_witness :
  (generate_test_code demo_env "prompt" demo_world).1
  = Raise (OtherException "InternalServerError").
Proof.
  by rewrite (generate_test_code_warns_then_propagates demo_env "prompt"
                demo_world (OtherException "InternalServerError")).
Defined.

(** X15: the model client reads and writes no file, reads no console input,
    never ends the process, and makes at least one and at most three
    backend calls. *)
Theorem generate_test_code_only_calls_backend
    (E : env) (prompt : string) (w : world) :
  files (generate_test_code E prompt w).2 = files w
  ∧ stdin (generate_test_code E prompt w).2 = stdin w
  ∧ (∀ code, (generate_test_code E prompt w).1 ≠ Exit code)
  ∧ calls w < calls (generate_test_code E prompt w).2 ≤ calls w + 3.
Proof.
  unfold generate_test_code, stop_after_attempt, wait_fixed.
  destruct (retrying_generate_attempt E prompt 5 (3 - 1) w)
    as (r & w' & n & new & Hr & Hf & Hi & Hc & Hn & Ht & Hs & Hpre & Hlast).
  rewrite Hr. cbn [fst snd]. split_and!; try done; try lia.
  intros code ->.
  pose proof (attempt_result_not_exit E prompt (calls w + (n - 1))) as Hnx.
  destruct (attempt_result E prompt (calls w + (n - 1))) as [v|e|c];
    [done| |done].
  destruct (retry_if_exception_type e); [by destruct Hlast|done].
Qed.

(** ** More on discovery *)

(** X16: what discovery returns: the joined paths of the qualifying files of
    every directory of the walk, in the order of the walk. *)
Theorem discover_membership
    (walk : list (string * list string * list string)) (p : string) :
  p ∈ discover walk
  ↔ ∃ root dirs names file,
      (root, dirs, names) ∈ walk ∧ file ∈ names
      ∧ is_source_file file = true ∧ p = os_path_join root file.
Proof.
  unfold discover. rewrite list_elem_of_In, in_flat_map. split.
  - intros ([[root dirs] names] & Hin & Hp).
    apply in_map_iff in Hp as (file & <- & Hf).
    apply filter_In in Hf as [Hf Hq].
    exists root, dirs, names, file.
    by rewrite !list_elem_of_In.
  - intros (root & dirs & names & file & Hin & Hf & Hq & ->).
    exists (root, dirs, names). split; [by apply list_elem_of_In|].
    apply in_map, filter_In. by rewrite <- list_elem_of_In.
Qed.


(** ** Paths *)

Lemma basename_cons c (p : string) :
  basename (String c p)
  = if contains p "/" then basename p
    else if Ascii.eqb c sep_char then p else String c p.
Proof. reflexivity. Qed.

Lemma contains_sep_cons c (p : string) :
  contains (String c p) "/" = Ascii.eqb c sep_char || contains p "/".
Proof.
  rewrite contains_cons. f_equal.
  change (startswith (String c p) "/") with (Ascii.eqb c "/" && true).
  apply andb_true_r.
Qed.

Lemma basename_no_sep (p : string) : contains (basename p) "/" = false.
Proof.
  induction p as [|c p IH]; [done|]. rewrite basename_cons.
  destruct (contains p "/") eqn:Hp; [done|].
  destruct (Ascii.eqb c sep_char) eqn:Hc; [done|].
  by rewrite contains_sep_cons, Hc, Hp.
Qed.

Lemma basename_id (p : string) : contains p "/" = false → basename p = p.
Proof.
  destruct p as [|c p]; [done|]. rewrite contains_sep_cons, basename_cons.
  intros [-> ->]%orb_false_elim. done.
Qed.

Lemma contains_sep_app_r (a b : string) :
  contains b "/" = true → contains (a +:+ b) "/" = true.
Proof.
  intros (x & y & ->)%contains_infix. apply contains_infix.
  exists (a +:+ x), y. by rewrite str_app_assoc.
Qed.

Lemma basename_after_sep (a b : string) :
  contains b "/" = false → basename (a +:+ "/" +:+ b) = b.
Proof.
  intros Hb. induction a as [|c a IH].
  - rewrite str_app_nil_l.
    change ("/" +:+ b) with (String sep_char b).
    by rewrite basename_cons, Hb.
  - rewrite str_app_cons, basename_cons.
    rewrite contains_sep_app_r; [done|].
    change ("/" +:+ b) with (String sep_char b).
    by rewrite contains_sep_cons.
Qed.

Lemma basename_join (a b : string) :
  contains b "/" = false → basename (os_path_join a b) = b.
Proof.
  intros Hb. unfold os_path_join.
  destruct (startswith b "/") eqn:Hs.
  { apply startswith_split in Hs as [x ->].
    by rewrite (proj2 (contains_infix _ _)) in Hb by by exists "", x. }
  destruct (String.eqb a "") eqn:Ha.
  { apply String.eqb_eq in Ha as ->. by rewrite basename_id. }
  cbn [orb]. destruct (endswith a "/") eqn:He.
  - apply endswith_suffix in He as [a0 ->].
    rewrite str_app_assoc. by apply basename_after_sep.
  - by apply basename_after_sep.
Qed.

(** X17: the artifact of a module is the file [test_<module file name>]
    directly inside the test directory. *)
Theorem test_path_basename (E : env) (file_path : string) :
  basename (test_path_of E file_path) = "test_" +:+ basename file_path
  ∧ contains ("test_" +:+ basename file_path) "/" = false.
Proof.
  assert (contains ("test_" +:+ basename file_path) "/" = false) as H.
  { change ("test_" +:+ basename file_path)
      with (String "t" (String "e" (String "s" (String "t"
             (String "_" (basename file_path)))))).
    rewrite !contains_sep_cons. by rewrite basename_no_sep. }
  split; [|done]. unfold test_path_of. by apply basename_join.
Qed.

(** ** More on the generation stage *)


Lemma generate_test_code_no_exit (E : env) (prompt : string) (w : world)
    (code : Z) (w' : world) :
  generate_test_code E prompt w ≠ (Exit code, w').
Proof.
  unfold generate_test_code.
  destruct (retrying_generate_attempt E prompt wait_fixed
              (stop_after_attempt - 1) w)
    as (r & w0 & n & new & Hr & _ & _ & _ & _ & _ & _ & _ & Hlast).
  rewrite Hr. intros [= -> ->].
  pose proof (attempt_result_not_exit E prompt (calls w + (n - 1))) as Hnx.
  destruct (attempt_result E prompt (calls w + (n - 1))) as [v|e|c];
    [done| |done].
  destruct (retry_if_exception_type e); [by destruct Hlast|done].
Qed.

(** A turn of the generation loop ends in one of three ways. *)
Lemma generate_for_cases (E : env) (m : string) (created : list string)
    (w : world) :
  (files w !! m = None
   ∧ generate_for E m created w = (Raise (read_failure E m), w))
  ∨ (∃ w', generate_for E m created w = (Return created, w')
           ∧ files w' = files w ∧ stdin w' = stdin w)
  ∨ (∃ w' a, generate_for E m created w
             = (Return (created ++ [test_path_of E m]), w')
             ∧ files w' = <[test_path_of E m := a]> (files w)
             ∧ stdin w' = stdin w ∧ strip a ≠ "").
Proof.
  unfold generate_for, bind, open_read, try_except.
  destruct (files w !! m) as [code|] eqn:Hm; [right|by left].
  destruct (generate_test_code E (generation_prompt code) w) as [r w1] eqn:Hg.
  destruct (generate_test_code_frame _ _ _ _ _ Hg) as [Hf Hi].
  destruct r as [v|e|c].
  - destruct (extract_code_from_markdown_dyn v) as [text|e] eqn:Hx;
      cbn -[strip test_path_of].
    + destruct (String.eqb (strip text) "") eqn:Hb; cbn -[strip test_path_of].
      * left. eexists. split; [done|]. by rewrite <- Hf, <- Hi.
      * right. eexists _, text. split; [done|]. cbn [files stdin].
        rewrite Hf, Hi. split_and!; try done. by apply String.eqb_neq.
    + left. eexists. split; [done|]. by rewrite <- Hf, <- Hi.
  - left. cbn. eexists. split; [done|]. by rewrite <- Hf, <- Hi.
  - by destruct (generate_test_code_no_exit _ _ _ _ _ Hg).
Qed.

(** X18: a response from which nothing but blank text is extracted produces no
    artifact: the module is reported and skipped. *)
Theorem generate_for_blank_artifact
    (E : env) (m code text : string) (created : list string) (w w1 : world) :
  files w !! m = Some code →
  generate_test_code E (generation_prompt code) w = (Return (PyStr text), w1) →
  strip (extract_code_from_markdown text) = "" →
  generate_for E m created w
  = (Return created, add_events w1 [EvLog ERROR (MsgEmptyTestCode m)])
  ∧ files w1 = files w.
Proof.
  intros Hm Hg Hb. destruct (generate_test_code_frame _ _ _ _ _ Hg) as [Hf _].
  split; [|done]. unfold generate_for, bind, open_read, try_except.
  rewrite Hm, Hg. cbn -[extract_code_from_markdown strip].
  by rewrite Hb.
Qed.

Lemma generate_for_blank_artifact_witness :
  (generate_for (env_answering (PyObj [("text", PyStr "def test(): pass")]))
     "/app/src/foo.py" [] demo_world).1 = Return [].
Proof.
  by rewrite (proj1 (generate_for_blank_artifact
                (env_answering (PyObj [("text", PyStr "def test(): pass")]))
                "/app/src/foo.py" "def foo(): return 1" "def test(): pass" []
                demo_world
                (generate_test_code
                   (env_answering (PyObj [("text", PyStr "def test(): pass")]))
                   (generation_prompt "def foo(): return 1") demo_world).2
                eq_refl eq_refl eq_refl)).
Defined.

(** X19: a response that is not a text, [None] among them, produces no
    artifact either: the failed call of [splitlines] is caught and
    reported. *)
Theorem generate_for_not_a_text
    (E : env) (m code : string) (v : pyval) (e : exn)
    (created : list string) (w w1 : world) :
  files w !! m = Some code →
  generate_test_code E (generation_prompt code) w = (Return v, w1) →
  extract_code_from_markdown_dyn v = Err e →
  generate_for E m created w
  = (Return created, add_events w1 [EvLog ERROR (MsgGenerationError m e)])
  ∧ files w1 = files w.
Proof.
  intros Hm Hg Hx. destruct (generate_test_code_frame _ _ _ _ _ Hg) as [Hf _].
  split; [|done]. unfold generate_for, bind, open_read, try_except.
  by rewrite Hm, Hg, Hx.
Qed.

Lemma generate_for_not_a_text_witness :
  (generate_for (env_answering (PyDict [])) "/app/src/foo.py" [] demo_world).1
  = Return [].
Proof.
  by rewrite (proj1 (generate_for_not_a_text (env_answering (PyDict []))
                "/app/src/foo.py" "def foo(): return 1" PyNone
                (no_attribute "splitlines") [] demo_world
                (generate_test_code (env_answering (PyDict []))
                   (generation_prompt "def foo(): return 1") demo_world).2
                eq_refl eq_refl eq_refl)).
Defined.

(** X20: a module that cannot be read ends the stage: the exception of
    [open] and [read] ([FileNotFoundError] when nothing is at the path)
    leaves the loop, the later modules are not processed and nothing is
    written. *)
Theorem generation_stage_unreadable_module
    (E : env) (m : string) (rest : list string) (w : world) :
  files w !! m = None →
  generation_stage E (m :: rest) w = (Raise (read_failure E m), w)
  ∧ (read_error E m = None →
     generation_stage E (m :: rest) w = (Raise (FileNotFoundError m), w)).
Proof.
  intros Hm.
  assert (generation_stage E (m :: rest) w = (Raise (read_failure E m), w)) as H.
  { unfold generation_stage. cbn [for_fold].
    unfold bind at 1. unfold generate_for, bind, open_read. by rewrite Hm. }
  split; [done|]. intros Hr. rewrite H. unfold read_failure. by rewrite Hr.
Qed.

Lemma generation_stage_unreadable_module_witness :
  generation_stage demo_env ["/app/src/missing.py"; "/app/src/foo.py"] demo_world
  = (Raise (FileNotFoundError "/app/src/missing.py"), demo_world).
Proof.
  by apply (proj2 (generation_stage_unreadable_module demo_env
                     "/app/src/missing.py" ["/app/src/foo.py"] demo_world
                     eq_refl)).
Defined.

Lemma generate_for_holds (E : env) (m : string) (created : list string)
    (w : world) (p : string) :
  holds_artifact w p → holds_artifact (generate_for E m created w).2 p.
Proof.
  intros (a & Ha & Hne).
  destruct (generate_for_cases E m created w)
    as [[_ ->]|[(w' & -> & Hf & _)|(w' & b & -> & Hf & _ & Hb)]];
    cbn [snd]; unfold holds_artifact.
  - eauto.
  - rewrite Hf. eauto.
  - rewrite Hf. destruct (decide (test_path_of E m = p)) as [<-|Hp].
    + exists b. by rewrite lookup_insert_eq.
    + exists a. by rewrite lookup_insert_ne.
Qed.

Lemma generation_loop_invariant (E : env) (python_files : list string)
    (created0 : list string) (w : world) :
  ∃ r w', for_fold python_files (generate_for E) created0 w = (r, w')
    ∧ stdin w' = stdin w
    ∧ (∀ code, r ≠ Exit code)
    ∧ (∀ e, r = Raise e → ∃ m, m ∈ python_files ∧ e = read_failure E m)
    ∧ (∀ p, p ∉ map (test_path_of E) python_files →
         files w' !! p = files w !! p)
    ∧ (∀ p, holds_artifact w p → holds_artifact w' p)
    ∧ (∀ created, r = Return created →
         ∃ added, created = created0 ++ added
           ∧ added `sublist_of` map (test_path_of E) python_files
           ∧ ∀ p, p ∈ added → holds_artifact w' p).
Proof.
  revert created0 w. induction python_files as [|m ms IH]; intros created0 w.
  - exists (Return created0), w. split_and!; try done.
    intros created [= <-]. exists []. split_and!; [by rewrite List.app_nil_r|done|].
    by intros p ?%elem_of_nil.
  - cbn [for_fold map]. unfold bind at 1.
    pose proof (generate_for_holds E m created0 w) as Hholds.
    destruct (generate_for_cases E m created0 w)
      as [[_ Hrun]|[(w1 & Hrun & Hf & Hi)|(w1 & a & Hrun & Hf & Hi & Ha)]];
      rewrite Hrun in Hholds |- *; cbn [snd] in Hholds.
    + exists (Raise (read_failure E m)), w. split_and!; try done.
      intros e [= <-]. exists m. split; [by left|done].
    + destruct (IH created0 w1) as (r & w' & Hr & Hi' & Hx & He & Hfr & Hh & Hc).
      exists r, w'. rewrite Hr. split_and!; try done.
      * congruence.
      * intros e Hre. destruct (He e Hre) as (m' & Hm' & ->).
        exists m'. split; [by right|done].
      * intros p Hp. rewrite Hfr, Hf; [done|]. intros ?. apply Hp. by right.
      * eauto.
      * intros created Hcr. destruct (Hc _ Hcr) as (added & -> & Hsub & Hall).
        exists added. split_and!; [done|by apply sublist_cons|done].
    + destruct (IH (created0 ++ [test_path_of E m]) w1)
        as (r & w' & Hr & Hi' & Hx & He & Hfr & Hh & Hc).
      exists r, w'. rewrite Hr. split_and!; try done.
      * congruence.
      * intros e Hre. destruct (He e Hre) as (m' & Hm' & ->).
        exists m'. split; [by right|done].
      * intros p Hp. rewrite Hfr, Hf.
        -- apply lookup_insert_ne. intros <-. apply Hp. by left.
        -- intros ?. apply Hp. by right.
      * eauto.
      * intros created Hcr. destruct (Hc _ Hcr) as (added & -> & Hsub & Hall).
        exists (test_path_of E m :: added).
        split_and!; [by rewrite <- List.app_assoc|by apply sublist_skip|].
        intros p [->|Hp]%elem_of_cons; [|by apply Hall].
        apply Hh. exists a. by rewrite Hf, lookup_insert_eq.
Qed.

(** X21: what the generation stage keeps, whatever the modules and the backend:
    it never ends the process and reads no console input; the only
    exception that leaves it is the one [open] and [read] raised on a
    module that could not be read; it leaves every file alone that is not
    the artifact of one of the modules; and when it returns, the artifacts
    it reports are artifacts of the modules, in their order, each holding
    a text that is not blank. *)
Theorem generation_stage_invariant
    (E : env) (python_files : list string) (w : world) :
  ∃ r w', generation_stage E python_files w = (r, w')
    ∧ stdin w' = stdin w
    ∧ (∀ code, r ≠ Exit code)
    ∧ (∀ e, r = Raise e → ∃ m, m ∈ python_files ∧ e = read_failure E m)
    ∧ (∀ p, p ∉ map (test_path_of E) python_files →
         files w' !! p = files w !! p)
    ∧ (∀ created, r = Return created →
         created `sublist_of` map (test_path_of E) python_files
         ∧ ∀ p, p ∈ created → ∃ a, files w' !! p = Some a ∧ strip a ≠ "").
Proof.
  unfold generation_stage.
  destruct (generation_loop_invariant E python_files [] w)
    as (r & w' & Hr & Hi & Hx & He & Hfr & _ & Hc).
  exists r, w'. split_and!; try done.
  intros created Hcr. destruct (Hc _ Hcr) as (added & -> & Hsub & Hall).
  done.
Qed.

(** ** The execution stage and the report *)



Lemma dict_set_keys (key : string) (value : bool) (d : list (string * bool)) :
  map fst (dict_set key value d)
  = if bool_decide (key ∈ map fst d) then map fst d else map fst d ++ [key].
Proof.
  induction d as [|[k v] d IH]; [done|]. cbn [dict_set map fst].
  destruct (String.eqb k key) eqn:Hk.
  - apply String.eqb_eq in Hk as ->.
    by rewrite bool_decide_eq_true_2 by left.
  - apply String.eqb_neq in Hk. cbn [map fst]. rewrite IH.
    destruct (bool_decide (key ∈ map fst d)) eqn:Hd.
    + apply bool_decide_eq_true in Hd.
      by rewrite bool_decide_eq_true_2 by by right.
    + apply bool_decide_eq_false in Hd.
      rewrite bool_decide_eq_false_2; [done|].
      intros [?|?]%elem_of_cons; congruence.
Qed.

Lemma dict_set_entries (key : string) (value : bool) (d : list (string * bool))
    (k : string) (v : bool) :
  (k, v) ∈ dict_set key value d → (k = key ∧ v = value) ∨ (k, v) ∈ d.
Proof.
  induction d as [|[k' v'] d IH]; cbn [dict_set].
  - intros [= -> ->]%list_elem_of_singleton. by left.
  - destruct (String.eqb k' key) eqn:Hk.
    + apply String.eqb_eq in Hk as ->.
      intros [[= -> ->]|H]%elem_of_cons; [by left|]. right. by right.
    + intros [[= -> ->]|H]%elem_of_cons; [right; by left|].
      destruct (IH H) as [?|?]; [by left|]. right. by right.
Qed.

Lemma dict_set_NoDup (key : string) (value : bool) (d : list (string * bool)) :
  NoDup (map fst d) → NoDup (map fst (dict_set key value d)).
Proof.
  intros Hd. rewrite dict_set_keys. case_bool_decide as Hk; [done|].
  apply NoDup_app. split_and!; [done| |apply NoDup_singleton].
  by intros x Hx ->%list_elem_of_singleton.
Qed.


Lemma execute_one_run (E : env) (p : string) (results : list (string * bool))
    (w : world) :
  ∃ w', execute_one E p results w
        = (Return (dict_set p (suite_passed E (files w) p) results), w')
    ∧ files w' = files w ∧ stdin w' = stdin w ∧ calls w' = calls w.
Proof.
  unfold execute_one, try_except, bind, run_tests, suite_passed.
  destruct (run_suite E (files w) p) as [ok|e]; by eexists.
Qed.

Lemma execution_loop (E : env) (created : list string)
    (results0 : list (string * bool)) (w : world) :
  NoDup (map fst results0) →
  (∀ p ok, (p, ok) ∈ results0 → ok = suite_passed E (files w) p) →
  ∃ results w',
    for_fold created (execute_one E) results0 w = (Return results, w')
    ∧ files w' = files w ∧ stdin w' = stdin w ∧ calls w' = calls w
    ∧ NoDup (map fst results)
    ∧ (∀ p, p ∈ map fst results ↔ p ∈ map fst results0 ∨ p ∈ created)
    ∧ (∀ p ok, (p, ok) ∈ results → ok = suite_passed E (files w) p).
Proof.
  revert results0 w. induction created as [|p ps IH]; intros results0 w Hnd Hval.
  - exists results0, w. split_and!; try done. intros p. split; [by left|].
    by intros [?|?%elem_of_nil].
  - cbn [for_fold]. unfold bind at 1.
    destruct (execute_one_run E p results0 w) as (w1 & -> & Hf & Hi & Hc).
    destruct (IH (dict_set p (suite_passed E (files w) p) results0) w1)
      as (results & w' & Hr & Hf' & Hi' & Hc' & Hnd' & Hkeys & Hval').
    { by apply dict_set_NoDup. }
    { rewrite Hf. intros k v [[-> ->]|H]%dict_set_entries; [done|by apply Hval]. }
    exists results, w'. rewrite Hr. split_and!; try congruence.
    + intros k. rewrite Hkeys, dict_set_keys, elem_of_cons.
      case_bool_decide as Hk.
      * split; [intros [?|?]; auto|intros [?|[->|?]]; auto].
      * rewrite elem_of_app, list_elem_of_singleton.
        split; [intros [[?|?]|?]; auto|intros [?|[?|?]]; auto].
    + intros k v Hkv. rewrite <- Hf. by apply Hval'.
Qed.

Lemma execution_stage_run (E : env) (created : list string) (w : world) :
  ∃ results w',
    execution_stage E created w = (Return results, w')
    ∧ files w' = files w ∧ stdin w' = stdin w ∧ calls w' = calls w
    ∧ NoDup (map fst results)
    ∧ (∀ p, p ∈ map fst results ↔ p ∈ created)
    ∧ (∀ p ok, (p, ok) ∈ results → ok = suite_passed E (files w) p).
Proof.
  unfold execution_stage, bind, logger. cbn [level_enabled emit].
  match goal with |- context [for_fold _ _ _ ?w1] =>
    destruct (execution_loop E created [] w1)
      as (results & w' & Hr & Hf & Hi & Hc & Hnd & Hkeys & Hval)
  end; [apply NoDup_nil_2|by intros ? ? ?%elem_of_nil|].
  exists results, w'. rewrite Hr. split_and!; try done.
  intros p. rewrite Hkeys. split; [by intros [?%elem_of_nil|?]|by right].
Qed.


Lemma bind_return {A B} (m : M A) (k : A → M B) (w w' : world) (a : A) :
  m w = (Return a, w') → bind m k w = k a w'.
Proof. intros H. unfold bind. by rewrite H. Qed.

Lemma logger_info (msg : message) (w : world) :
  logger INFO msg w = (Return tt, add_events w [EvLog INFO msg]).
Proof. reflexivity. Qed.

Lemma for_each_logger {A} (items : list A) (f : A → message) (w : world) :
  for_each items (λ x, logger INFO (f x)) w
  = (Return tt, add_events w (map (λ x, EvLog INFO (f x)) items)).
Proof.
  revert w. induction items as [|x items IH]; intros w.
  - by rewrite add_events_nil.
  - cbn [for_each map]. rewrite (bind_return _ _ _ _ _ (logger_info _ _)).
    rewrite IH, add_events_app. done.
Qed.

Lemma filter_partition_length {A} (f : A → bool) (l : list A) :
  length (List.filter f l) + length (List.filter (λ x, negb (f x)) l) = length l.
Proof.
  induction l as [|x l IH]; [done|]. cbn [List.filter].
  destruct (f x); cbn [negb length]; lia.
Qed.

Lemma report_run (test_results : list (string * bool)) (w : world) :
  report test_results w = (Return tt, add_events w (report_events test_results)).
Proof.
  unfold report, report_events.
  rewrite !(bind_return _ _ _ _ _ (logger_info _ _)).
  rewrite (bind_return _ _ _ _ _ (for_each_logger _ _ _)).
  rewrite (bind_return _ _ _ _ _ (logger_info _ _)).
  by rewrite for_each_logger, !add_events_app.
Qed.

(** X23: the report sorts every recorded artifact into passed or failed, never
    both, and writes its count lines and one line per artifact: it only
    logs. *)
Theorem report_partitions_results (test_results : list (string * bool)) (w : world) :
  report test_results w = (Return tt, add_events w (report_events test_results))
  ∧ (∀ p, p ∈ passed_of test_results ↔ (p, true) ∈ test_results)
  ∧ (∀ p, p ∈ failed_of test_results ↔ (p, false) ∈ test_results)
  ∧ length (passed_of test_results) + length (failed_of test_results)
    = length test_results
  ∧ length (report_events test_results) = 3 + length test_results.
Proof.
  split_and!.
  - apply report_run.
  - intros p. unfold passed_of. rewrite list_elem_of_In, in_map_iff. split.
    + intros ([k v] & <- & [Hin Hv]%filter_In). cbn in Hv |- *. subst v.
      by apply list_elem_of_In.
    + intros Hin. exists (p, true). split; [done|]. apply filter_In.
      by rewrite <- list_elem_of_In.
  - intros p. unfold failed_of. rewrite list_elem_of_In, in_map_iff. split.
    + intros ([k v] & <- & [Hin Hv]%filter_In). cbn in Hv |- *.
      apply negb_true_iff in Hv. subst v. by apply list_elem_of_In.
    + intros Hin. exists (p, false). split; [done|]. apply filter_In.
      by rewrite <- list_elem_of_In.
  - unfold passed_of, failed_of. rewrite !length_map.
    apply (filter_partition_length (λ kv : string * bool, kv.2)).
  - unfold report_events. rewrite !length_app, !length_map. cbn [length].
    pose proof (filter_partition_length (λ kv : string * bool, kv.2) test_results).
    unfold passed_of, failed_of. rewrite !length_map. lia.
Qed.

(** ** More on the repair stage *)

(** A turn of the repair loop either cannot read the artifact, or returns
    with the files as they were, or returns having written a text the
    parser accepts. *)
Lemma repair_one_cases (E : env) (test_file : string) (w : world) :
  (files w !! test_file = None
   ∧ repair_one E test_file w = (Raise (read_failure E test_file), w))
  ∨ (∃ w', repair_one E test_file w = (Return tt, w')
           ∧ stdin w' = stdin w
           ∧ (files w' = files w
              ∨ ∃ fixed, files w' = <[test_file := fixed]> (files w)
                         ∧ py_compile E fixed = Ok tt
                         ∧ contains fixed "```" = false
                         ∧ strip fixed = fixed)).
Proof.
  unfold repair_one, bind, open_read, try_except.
  destruct (files w !! test_file) as [code|] eqn:Hf; [right|by left].
  destruct (generate_test_code E (repair_prompt code) w) as [r w1] eqn:Hg.
  destruct (generate_test_code_frame _ _ _ _ _ Hg) as [Hfr Hin].
  destruct r as [v|e|c].
  - destruct (extract_code_from_markdown_dyn v) as [text|e] eqn:Hx;
      cbn -[sanitize_generated_text].
    + destruct (py_compile E (sanitize_generated_text text)) as [[]|e] eqn:Hc;
        cbn -[sanitize_generated_text].
      * eexists. split; [done|]. cbn [files stdin]. split; [done|]. right.
        exists (sanitize_generated_text text). rewrite Hfr.
        split_and!; [done|done|apply sanitize_no_fence|apply strip_idemp].
      * destruct (is_SyntaxError e); cbn; eexists; (split; [done|]); auto.
    + eexists. split; [done|]. auto.
  - cbn. eexists. split; [done|]. auto.
  - by destruct (generate_test_code_no_exit _ _ _ _ _ Hg).
Qed.



(** X25: a repair that fails otherwise than by a syntax error (the model client
    raises, or the parser raises something else) is reported and leaves
    the artifact as it was; the turn still returns normally. *)
Theorem repair_one_reports_failure
    (E : env) (test_file code : string) (w : world) :
  files w !! test_file = Some code →
  (∀ e w1,
     generate_test_code E (repair_prompt code) w = (Raise e, w1) →
     repair_one E test_file w
     = (Return tt, add_events w1 [EvLog ERROR (MsgRepairError test_file e)])
     ∧ files w1 = files w)
  ∧ (∀ text e w1,
       generate_test_code E (repair_prompt code) w = (Return (PyStr text), w1) →
       py_compile E (sanitize_generated_text (extract_code_from_markdown text))
       = Err e →
       is_SyntaxError e = false →
       repair_one E test_file w
       = (Return tt, add_events w1 [EvLog ERROR (MsgRepairError test_file e)])
       ∧ files w1 = files w).
Proof.
  intros Hf. split.
  - intros e w1 Hg. destruct (generate_test_code_frame _ _ _ _ _ Hg) as [Hfr _].
    split; [|done]. unfold repair_one, bind, open_read, try_except.
    by rewrite Hf, Hg.
  - intros text e w1 Hg Hc Hs.
    destruct (generate_test_code_frame _ _ _ _ _ Hg) as [Hfr _].
    split; [|done]. unfold repair_one, bind, open_read, try_except.
    rewrite Hf, Hg. cbn -[extract_code_from_markdown sanitize_generated_text].
    by rewrite Hc, Hs.
Qed.

Lemma repair_one_reports_failure_witness :
  (repair_one env_over_quota "/app/tests/test_foo.py" demo_world).1 = Return tt
  ∧ files (repair_one env_over_quota "/app/tests/test_foo.py" demo_world).2
    = files demo_world.
Proof.
  destruct (proj1 (repair_one_reports_failure env_over_quota
                     "/app/tests/test_foo.py" "import unittest" demo_world
                     eq_refl)
              (RetryError ResourceExhausted)
              (generate_test_code env_over_quota
                 (repair_prompt "import unittest") demo_world).2 eq_refl)
    as [-> <-].
  done.
Defined.

Lemma repair_loop_frame (E : env) (failed_tests : list string) (w : world) :
  ∃ r w', for_each failed_tests (repair_one E) w = (r, w')
    ∧ stdin w' = stdin w
    ∧ (∀ code, r ≠ Exit code)
    ∧ (∀ e, r = Raise e →
         ∃ p, p ∈ failed_tests ∧ e = read_failure E p)
    ∧ (∀ p, p ∉ failed_tests → files w' !! p = files w !! p).
Proof.
  revert w. induction failed_tests as [|t ts IH]; intros w.
  - exists (Return tt), w. by split_and!.
  - cbn [for_each]. unfold bind at 1.
    destruct (repair_one_cases E t w) as [[_ ->]|(w1 & -> & Hi & Hfiles)].
    + exists (Raise (read_failure E t)), w. split_and!; try done.
      intros e [= <-]. exists t. split; [by left|done].
    + destruct (IH w1) as (r & w' & Hr & Hi' & Hx & He & Hfr).
      exists r, w'. rewrite Hr. split_and!; try done.
      * congruence.
      * intros e Hre. destruct (He e Hre) as (p & Hp & ->).
        exists p. split; [by right|done].
      * intros p Hp. rewrite Hfr by (intros ?; apply Hp; by right).
        destruct Hfiles as [->|(fixed & -> & _)]; [done|].
        apply lookup_insert_ne. intros <-. apply Hp. by left.
Qed.

Lemma repair_stage_frame (E : env) (failed_tests : list string) (w : world) :
  ∃ r w', repair_stage E failed_tests w = (r, w')
    ∧ (∀ code, r ≠ Exit code)
    ∧ (∀ e, r = Raise e →
         e = EOFError ∨ ∃ p, p ∈ failed_tests ∧ e = read_failure E p)
    ∧ (∀ p, p ∉ failed_tests → files w' !! p = files w !! p)
    ∧ (failed_tests = [] → w' = w ∧ r = Return tt).
Proof.
  unfold repair_stage. destruct failed_tests as [|t ts].
  { exists (Return tt), w. by split_and!. }
  unfold bind, py_input. destruct (stdin w) as [|approval rest] eqn:Hin.
  { exists (Raise EOFError), w. split_and!; try done. intros e [= <-]. by left. }
  destruct (String.eqb (lower approval) "yes").
  - match goal with |- context [for_each _ _ ?w1] =>
      destruct (repair_loop_frame E (t :: ts) w1)
        as (r & w' & Hr & _ & Hx & He & Hfr)
    end.
    exists r, w'. rewrite Hr. split_and!; try done. intros e Hre. right. eauto.
  - eexists _, _. split; [done|]. by split_and!.
Qed.


Lemma lower_char_y (c : ascii) :
  lower_char c = "y"%char → c = "y"%char ∨ c = "Y"%char.
Proof.
  destruct c as [[] [] [] [] [] [] [] []]; vm_compute; intros H;
    first [discriminate H | by left | by right].
Qed.

Lemma lower_char_e (c : ascii) :
  lower_char c = "e"%char → c = "e"%char ∨ c = "E"%char.
Proof.
  destruct c as [[] [] [] [] [] [] [] []]; vm_compute; intros H;
    first [discriminate H | by left | by right].
Qed.

Lemma lower_char_s (c : ascii) :
  lower_char c = "s"%char → c = "s"%char ∨ c = "S"%char.
Proof.
  destruct c as [[] [] [] [] [] [] [] []]; vm_compute; intros H;
    first [discriminate H | by left | by right].
Qed.

Lemma lower_yes (approval : string) :
  lower approval = "yes" ↔ approval ∈ yes_spellings.
Proof.
  split.
  - destruct approval as [|a [|b [|c [|d s]]]]; try done.
    cbn [lower]. intros [= Ha Hb Hc].
    destruct (lower_char_y _ Ha) as [-> | ->],
             (lower_char_e _ Hb) as [-> | ->],
             (lower_char_s _ Hc) as [-> | ->];
      unfold yes_spellings; set_solver.
  - unfold yes_spellings. rewrite !elem_of_cons, elem_of_nil.
    intros [->|[->|[->|[->|[->|[->|[->|[->|[]]]]]]]]]; reflexivity.
Qed.

(** X27: the repair loop runs exactly when the answer is one of the eight
    spellings of yes; any other answer, with surrounding blanks or
    shortened to one letter, ends the stage. *)
Theorem repair_stage_approval
    (E : env) (failed_tests : list string) (approval : string)
    (rest : list string) (w : world) :
  failed_tests ≠ [] →
  stdin w = approval :: rest →
  (approval ∈ yes_spellings →
   repair_stage E failed_tests w
   = for_each failed_tests (repair_one E) (after_input w rest))
  ∧ (approval ∉ yes_spellings →
     repair_stage E failed_tests w = (Return tt, after_input w rest)).
Proof.
  intros Hne Hin. destruct failed_tests as [|t ts]; [done|].
  unfold repair_stage, bind, py_input. rewrite Hin. split.
  - intros Hyes%lower_yes. by rewrite Hyes.
  - intros Hno. destruct (String.eqb (lower approval) "yes") eqn:Hl; [|done].
    apply String.eqb_eq, lower_yes in Hl. done.
Qed.

Lemma repair_stage_approval_witness :
  repair_stage demo_env ["/app/tests/test_foo.py"] demo_world_blank_yes
  = (Return tt, after_input demo_world_blank_yes []).
Proof.
  apply (proj2 (repair_stage_approval demo_env ["/app/tests/test_foo.py"]
                  " yes" [] demo_world_blank_yes ltac:(done) eq_refl)).
  unfold yes_spellings. rewrite !elem_of_cons, elem_of_nil.
  intros [H|[H|[H|[H|[H|[H|[H|[H|[]]]]]]]]]; discriminate H.
Defined.

(** ** The whole run *)

Lemma failed_of_subset (results : list (string * bool)) (p : string) :
  p ∈ failed_of results → p ∈ map fst results.
Proof.
  unfold failed_of. rewrite !list_elem_of_In, !in_map_iff.
  intros (kv & <- & [Hin _]%filter_In). by exists kv.
Qed.

Lemma failed_of_all_passed (results : list (string * bool)) :
  (∀ p ok, (p, ok) ∈ results → ok = true) → failed_of results = [].
Proof.
  intros H. unfold failed_of.
  assert (List.filter (λ kv : string * bool, negb kv.2) results = []) as ->;
    [|done].
  induction results as [|[k v] rs IH]; [done|]. cbn [List.filter snd].
  rewrite (H k v) by left. cbn [negb]. apply IH. intros. eapply H. by right.
Qed.

(** What runs after the generation stage has returned its artifacts. *)
Lemma after_generation_run (E : env) (created : list string) (w : world) :
  ∃ r w',
    (match created with
     | [] => ret tt
     | _ => test_results <- execution_stage E created ;;
            report test_results ;;
            repair_stage E (failed_of test_results)
     end) w = (r, w')
    ∧ (∀ code, r ≠ Exit code)
    ∧ (∀ e, r = Raise e → e = EOFError ∨ ∃ p, e = read_failure E p)
    ∧ (∀ p, p ∉ created → files w' !! p = files w !! p)
    ∧ ((∀ fs p, run_suite E fs p = Ok true) →
         stdin w' = stdin w ∧ r = Return tt ∧ files w' = files w).
Proof.
  destruct created as [|c cs].
  { exists (Return tt), w. by split_and!. }
  destruct (execution_stage_run E (c :: cs) w)
    as (results & w1 & Hr & Hf & Hi & _ & _ & Hkeys & Hval).
  rewrite (bind_return _ _ _ _ _ Hr).
  rewrite (bind_return _ _ _ _ _ (report_run _ _)).
  destruct (repair_stage_frame E (failed_of results)
              (add_events w1 (report_events results)))
    as (r & w' & Hrep & Hx & He & Hfr & Hnil).
  exists r, w'. rewrite Hrep. split_and!; try done.
  - intros e Hre. destruct (He e Hre) as [?|(p & _ & ?)]; eauto.
  - intros p Hp. rewrite Hfr; [by cbn; rewrite Hf|].
    intros Hin%failed_of_subset. by apply Hp, Hkeys.
  - intros Hpass. destruct Hnil as [-> ->].
    { apply failed_of_all_passed. intros p ok Hin.
      rewrite (Hval _ _ Hin). unfold suite_passed. by rewrite Hpass. }
    by cbn.
Qed.

Lemma read_failure_not_eof (E : env) (p : string) : read_failure E p ≠ EOFError.
Proof. unfold read_failure. by destruct (read_error E p). Qed.

Lemma main_run (E : env) (w : world) :
  ∃ r w', main E w = (r, w')
    ∧ (∀ code, r = Exit code →
         (code = 1%Z ∧ path_exists E (src_dir E) = false
          ∨ code = 0%Z ∧ path_exists E (src_dir E) = true
            ∧ discover (os_walk E (src_dir E)) = [])
         ∧ files w' = files w ∧ calls w' = calls w)
    ∧ (∀ e, r = Raise e →
         e = EOFError
         ∨ (∃ kind, makedirs_error E (test_dir E) = Some kind
                    ∧ e = FileError kind)
         ∨ ∃ p, e = read_failure E p)
    ∧ (∀ p, p ∉ map (test_path_of E) (discover (os_walk E (src_dir E))) →
         files w' !! p = files w !! p)
    ∧ ((∀ fs p, run_suite E fs p = Ok true) →
         stdin w' = stdin w ∧ r ≠ Raise EOFError).
Proof.
  unfold main. destruct (path_exists E (src_dir E)) eqn:Hsrc; cbn [negb].
  2:{ eexists _, _. split; [reflexivity|]. split_and!; try done.
      intros code [= <-]. split_and!; auto. }
  unfold bind at 1, os_makedirs.
  destruct (makedirs_error E (test_dir E)) as [kind|] eqn:Hmk.
  { eexists _, _. split; [reflexivity|]. split_and!; try done.
    intros e [= <-]. right; left. eauto. }
  destruct (discover (os_walk E (src_dir E))) as [|f fs] eqn:Hd.
  { eexists _, _. split; [reflexivity|]. split_and!; try done.
    intros code [= <-]. split_and!; auto. }
  rewrite (bind_return _ _ _ _ _ (logger_info _ _)).
  rewrite (bind_return _ _ _ _ _ (for_each_logger _ _ _)).
  match goal with |- context [bind (generation_stage E ?pf) _ ?w0] =>
    destruct (generation_loop_invariant E pf [] w0)
      as (r1 & w1 & Hgen & Hi1 & Hx1 & He1 & Hfr1 & _ & Hc1);
    fold (generation_stage E pf) in Hgen
  end.
  unfold bind at 1. rewrite Hgen. destruct r1 as [created|e|c].
  - destruct (Hc1 _ eq_refl) as (added & Hadd & Hsub & _).
    cbn [app] in Hadd. subst added.
    destruct (after_generation_run E created w1)
      as (r2 & w2 & Hrun & Hx2 & He2 & Hfr2 & Hpass).
    unfold bind at 1. rewrite Hrun. destruct r2 as [[]|e|c].
    + eexists _, _. split; [reflexivity|]. split_and!; try done.
      * intros p Hp. cbn. rewrite Hfr2, Hfr1; [done|done|].
        intros Hin. apply Hp. by eapply elem_of_sublist.
      * intros Hall. destruct (Hpass Hall) as (Hi2 & _).
        cbn in Hi1 |- *. split; [congruence|done].
    + eexists _, _. split; [reflexivity|]. split_and!; try done.
      * intros e' [= <-]. destruct (He2 e eq_refl) as [?|?]; auto.
      * intros p Hp. rewrite Hfr2, Hfr1; [done|done|].
        intros Hin. apply Hp. by eapply elem_of_sublist.
      * intros Hall. by destruct (Hpass Hall) as (_ & ? & _).
    + by destruct (Hx2 c).
  - eexists _, _. split; [reflexivity|]. split_and!; try done.
    + intros e' [= <-]. destruct (He1 e eq_refl) as (m & _ & ->). eauto.
    + intros _. split; [by rewrite Hi1|].
      intros [= ->]. destruct (He1 _ eq_refl) as (m & _ & Hm).
      by destruct (read_failure_not_eof E m).
  - by destruct (Hx1 c).
Qed.




(** X30: when the runner reports every suite as passed, the operator is never
    asked: the console input is left unread and the run cannot fail for
    want of an answer. *)
Theorem main_all_passed_no_prompt (E : env) (w : world) :
  (∀ fs p, run_suite E fs p = Ok true) →
  stdin (main E w).2 = stdin w ∧ (main E w).1 ≠ Raise EOFError.
Proof.
  destruct (main_run E w) as (r & w' & -> & _ & _ & _ & Hpass). apply Hpass.
Qed.

Lemma main_all_passed_no_prompt_witness :
  stdin (main env_all_passing demo_world).2 = ["no"].
Proof. by apply (main_all_passed_no_prompt env_all_passing demo_world). Defined.
